(** * SC Environment impact assessment: a shallow embedding

    The development follows the two scripts under [.github/scripts]:
    [sc_environment_impact_check.py] (the rule matcher, the diff scanner, the
    report and the exit gate) and [send_slack_notification.py] (the
    notification sender).

    Conventions.
    - A Python [str] is a [string]; its characters are code points below 256.
      On that range the regular-expression class [\d] is exactly [0-9].
    - A Python [int] is a [Z].
    - A [dict] read with string keys is a [gmap string _]; a configuration
      [dict] that is only iterated is kept as the list of its items, in
      insertion order.
    - A call that can raise returns an [option], a [result] or an outcome of
      its own; [None] and [Raise] stand for the exception leaving the
      function.
    - The regular-expression engine ([re.findall]), the version-control
      subprocess ([git diff]) and the network ([urlopen]) are collaborators of
      the scripts; they are Section variables, and each has an outcome for the
      exception it can raise. *)

From Stdlib Require Import Ascii String ZArith Permutation.
From stdpp Require Import base option strings gmap list pretty.

Local Open Scope string_scope.
Local Open Scope list_scope.
Local Open Scope Z_scope.

(** ** Python string primitives *)

(** [s.startswith(p)]. *)
Fixpoint startswith (s p : string) {struct p} : bool :=
  match p with
  | "" => true
  | String a p' =>
      match s with
      | "" => false
      | String b s' => (Ascii.eqb a b && startswith s' p')%bool
      end
  end.
Arguments startswith : simpl never.

(** [s[1:]]. *)
Definition drop1 (s : string) : string :=
  match s with
  | "" => ""
  | String _ s' => s'
  end.

(** [s.split(sep)] for a one-character separator: never empty, one more piece
    than there are separators. *)
Fixpoint split_on (sep : ascii) (s : string) : list string :=
  match s with
  | "" => [""]
  | String c s' =>
      if Ascii.eqb c sep then "" :: split_on sep s'
      else match split_on sep s' with
           | [] => [String c ""]
           | piece :: pieces => String c piece :: pieces
           end
  end.

Definition newline : ascii := "010"%char.

(** When [p] is a prefix of [s], what follows it. *)
Fixpoint strip_prefix (p s : string) {struct p} : option string :=
  match p with
  | "" => Some s
  | String a p' =>
      match s with
      | "" => None
      | String b s' => if Ascii.eqb a b then strip_prefix p' s' else None
      end
  end.

Definition is_digit (c : ascii) : bool :=
  (N.leb 48 (N_of_ascii c) && N.leb (N_of_ascii c) 57)%bool.

(** The longest run of digits at the head of [s], and the rest. *)
Fixpoint span_digits (s : string) : string * string :=
  match s with
  | "" => ("", "")
  | String c s' =>
      if is_digit c then
        let '(d, r) := span_digits s' in (String c d, r)
      else ("", s)
  end.

(** [int(s)] on a string of decimal digits, most significant first. *)
Fixpoint int_of_digits (acc : Z) (s : string) : Z :=
  match s with
  | "" => acc
  | String c s' => int_of_digits (10 * acc + (Z.of_N (N_of_ascii c) - 48)) s'
  end.

(** [str.isspace] on one character below 256. *)
Definition is_py_space (c : ascii) : bool :=
  let n := N_of_ascii c in
  ((N.leb 9 n && N.leb n 13) || (N.leb 28 n && N.leb n 32)
   || N.eqb n 133 || N.eqb n 160)%bool.

Fixpoint lstrip (s : string) : string :=
  match s with
  | "" => ""
  | String c s' => if is_py_space c then lstrip s' else s
  end.

Fixpoint rstrip (s : string) : string :=
  match s with
  | "" => ""
  | String c s' =>
      match rstrip s' with
      | "" => if is_py_space c then "" else String c ""
      | r => String c r
      end
  end.

(** [s.strip()]. *)
Definition strip (s : string) : string := rstrip (lstrip s).

(** ** The library matcher [fnmatch.fnmatch]

    Modelled from the Python standard library ([fnmatch.translate] followed by
    a full match of the resulting expression), on a POSIX host where
    [os.path.normcase] is the identity. *)
Module Fnmatch.

(** One piece of a translated pattern. *)
Inductive piece : Type :=
| STAR                                   (* [*]: any run of characters *)
| AnyChar                                (* [?] *)
| Lit (c : ascii)                        (* an escaped literal *)
| Never                                  (* an empty set: [(?!)] *)
| CharSet (negated : bool) (chunks : list (list ascii)).

Definition dash : ascii := "-"%char.
Definition bang : ascii := "!"%char.
Definition rbracket : ascii := "]"%char.

(** Index of the first [x] in [l]. *)
Fixpoint find_char (x : ascii) (l : list ascii) : option nat :=
  match l with
  | [] => None
  | c :: l' => if Ascii.eqb c x then Some O else S <$> find_char x l'
  end.

(** The scan for the closing bracket: [rest] is the pattern after the
    opening bracket; the answer is the length of the set's text, when the
    set is closed. *)
Definition set_length (rest : list ascii) : option nat :=
  let j1 := match rest with
            | c :: _ => if Ascii.eqb c bang then 1%nat else 0%nat
            | [] => 0%nat
            end in
  let j2 := match drop j1 rest with
            | c :: _ => if Ascii.eqb c rbracket then S j1 else j1
            | [] => j1
            end in
  (fun k => (j2 + k)%nat) <$> find_char rbracket (drop j2 rest).

(** The cut of a set's text at the hyphens that can start a range: a hyphen
    is looked for again only three positions after the last one found
    ([wait] counts the positions still to skip). The last chunk may be
    empty. *)
Fixpoint cut_chunks (wait : nat) (cur : list ascii) (stuff : list ascii)
  : list (list ascii) :=
  match stuff with
  | [] => [cur]
  | c :: stuff' =>
      match wait with
      | S w => cut_chunks w (cur ++ [c]) stuff'
      | O => if Ascii.eqb c dash then cur :: cut_chunks 2 [] stuff'
             else cut_chunks 0 (cur ++ [c]) stuff'
      end
  end.

(** An empty last chunk means the text ended in a hyphen, which then
    belongs to the chunk before. *)
Fixpoint close_chunks (chunks : list (list ascii)) : list (list ascii) :=
  match chunks with
  | [] => []
  | [a] => [a]
  | [a; []] => [a ++ [dash]]
  | a :: rest => a :: close_chunks rest
  end.

Definition last_char (l : list ascii) : option ascii := last l.
Definition first_char (l : list ascii) : option ascii := head l.

Definition char_gt (a b : option ascii) : bool :=
  match a, b with
  | Some x, Some y => Ascii.ltb y x
  | _, _ => false
  end.

(** Removal of the empty ranges, from the right: a range whose lower end is
    above its upper end loses both ends and the two chunks are joined. *)
Fixpoint drop_empty_ranges (chunks : list (list ascii)) : list (list ascii) :=
  match chunks with
  | [] => []
  | a :: rest =>
      match drop_empty_ranges rest with
      | [] => [a]
      | b :: rest' =>
          if char_gt (last_char a) (first_char b)
          then (removelast a ++ tail b) :: rest'
          else a :: b :: rest'
      end
  end.

(** The chunks of the set whose text is [stuff]. *)
Definition chunks_of (stuff : list ascii) : list (list ascii) :=
  match find_char dash stuff with
  | None => [stuff]
  | Some _ =>
      let wait := match stuff with
                  | c :: _ => if Ascii.eqb c bang then 2%nat else 1%nat
                  | [] => 1%nat
                  end in
      drop_empty_ranges (close_chunks (cut_chunks wait [] stuff))
  end.

(** The piece for a closed set. *)
Definition set_piece (stuff : list ascii) : piece :=
  match chunks_of stuff with
  | [] | [[]] => Never
  | (c :: first) :: others =>
      if Ascii.eqb c bang then
        match first, others with
        | [], [] => AnyChar
        | _, _ => CharSet true (first :: others)
        end
      else CharSet false ((c :: first) :: others)
  | chunks => CharSet false chunks
  end.

(** [translate]: [skip] counts the characters of a set still to pass. Runs
    of stars are compressed into one. *)
Fixpoint translate_from (skip : nat) (pat : list ascii) : list piece :=
  match pat with
  | [] => []
  | c :: rest =>
      match skip with
      | S k => translate_from k rest
      | O =>
          if Ascii.eqb c "*"%char then
            match translate_from 0 rest with
            | STAR :: more => STAR :: more
            | more => STAR :: more
            end
          else if Ascii.eqb c "?"%char then AnyChar :: translate_from 0 rest
          else if Ascii.eqb c "["%char then
            match set_length rest with
            | None => Lit c :: translate_from 0 rest
            | Some j => set_piece (take j rest) :: translate_from (S j) rest
            end
          else Lit c :: translate_from 0 rest
      end
  end.

Definition translate (pat : string) : list piece :=
  translate_from 0 (list_ascii_of_string pat).

(** Membership of a character in a set: a member of a chunk, or in the range
    from the last character of a chunk to the first of the next. *)
Definition in_chunk (x : ascii) (chunk : list ascii) : bool :=
  existsb (Ascii.eqb x) chunk.

Definition in_range (x : ascii) (lo hi : option ascii) : bool :=
  match lo, hi with
  | Some a, Some b => (Ascii.leb a x && Ascii.leb x b)%bool
  | _, _ => false
  end.

Fixpoint in_chunks (x : ascii) (chunks : list (list ascii)) : bool :=
  match chunks with
  | [] => false
  | a :: rest =>
      (in_chunk x a
       || match rest with
          | [] => false
          | b :: _ => in_range x (last_char a) (first_char b)
          end
       || in_chunks x rest)%bool
  end.

Definition piece_accepts (p : piece) (x : ascii) : bool :=
  match p with
  | STAR => true
  | AnyChar => true
  | Lit c => Ascii.eqb c x
  | Never => false
  | CharSet negated chunks =>
      if negated then negb (in_chunks x chunks) else in_chunks x chunks
  end.

(** A full match of the name against the pieces. *)
Fixpoint matches (ps : list piece) : list ascii -> bool :=
  match ps with
  | [] => fun s => match s with [] => true | _ => false end
  | STAR :: ps' =>
      fix star (s : list ascii) : bool :=
        (matches ps' s
         || match s with
            | [] => false
            | _ :: s' => star s'
            end)%bool
  | p :: ps' =>
      fun s => match s with
               | [] => false
               | x :: s' => (piece_accepts p x && matches ps' s')%bool
               end
  end.

Definition fnmatchcase (name pat : string) : bool :=
  matches (translate pat) (list_ascii_of_string name).

Definition fnmatch (name pat : string) : bool := fnmatchcase name pat.

End Fnmatch.

(** ** [sc_environment_impact_check.py] *)
Module ImpactCheck.

(** *** [ImpactLevel] *)

Inductive ImpactLevel : Type := NONE | LOW | MEDIUM | HIGH | CRITICAL.

#[global] Instance ImpactLevel_eq_dec : EqDecision ImpactLevel.
Proof. solve_decision. Defined.

Definition value (l : ImpactLevel) : string :=
  match l with
  | NONE => "none"
  | LOW => "low"
  | MEDIUM => "medium"
  | HIGH => "high"
  | CRITICAL => "critical"
  end.

(** The members, in definition order. *)
Definition members : list ImpactLevel := [NONE; LOW; MEDIUM; HIGH; CRITICAL].

(** [ImpactLevel(v)]: the member whose value is [v]; [None] is the
    [ValueError] of a value that no member has. *)
Definition ImpactLevel_of_value (v : string) : option ImpactLevel :=
  List.find (fun m => String.eqb (value m) v) members.

(** [__eq__]: same value. *)
Definition ImpactLevel_eq (self other : ImpactLevel) : bool :=
  String.eqb (value self) (value other).

(** [list.index], with [__eq__] as the test; [None] is its [ValueError]. *)
Fixpoint index (x : ImpactLevel) (l : list ImpactLevel) : option nat :=
  match l with
  | [] => None
  | y :: l' => if ImpactLevel_eq y x then Some O else S <$> index x l'
  end.

(** [__lt__]. Every member is in [order], so neither [index] raises. *)
Definition ImpactLevel_lt (self other : ImpactLevel) : bool :=
  let order := [NONE; LOW; MEDIUM; HIGH; CRITICAL] in
  match index self order, index other order with
  | Some i, Some j => Nat.ltb i j
  | _, _ => false
  end.

(** The comparisons [functools.total_ordering] derives from [__lt__]:
    [a > b] is [not a < b and a != b], [a >= b] is [not a < b]. *)
Definition ImpactLevel_gt (self other : ImpactLevel) : bool :=
  (negb (ImpactLevel_lt self other) && negb (ImpactLevel_eq self other))%bool.

Definition ImpactLevel_ge (self other : ImpactLevel) : bool :=
  negb (ImpactLevel_lt self other).

(** *** [ImpactItem] and [ImpactReport] *)

Record ImpactItem : Type := {
  category : string;
  impact_level : ImpactLevel;
  file_path : string;
  description : string;
  details : list string;
  recommendation : option string;
}.

Record ImpactReport : Type := {
  overall_impact : ImpactLevel;
  items : list ImpactItem;
  summary : gmap string Z;
  changed_files : list string;
}.

(** [ImpactReport(overall_impact=ImpactLevel.NONE)], as the checker builds
    it. *)
Definition new_report : ImpactReport :=
  {| overall_impact := NONE; items := []; summary := ∅; changed_files := [] |}.

Definition add_item (self : ImpactReport) (item : ImpactItem) : ImpactReport :=
  {| overall_impact :=
       if ImpactLevel_gt (impact_level item) (overall_impact self)
       then impact_level item
       else overall_impact self;
     items := items self ++ [item];
     summary := summary self;
     changed_files := changed_files self |}.

(** [len([i for i in self.items if i.impact_level == level])]. *)
Definition count_level (level : ImpactLevel) (l : list ImpactItem) : Z :=
  Z.of_nat
    (length (List.filter (fun i => ImpactLevel_eq (impact_level i) level) l)).

Definition generate_summary (self : ImpactReport) : ImpactReport :=
  {| overall_impact := overall_impact self;
     items := items self;
     summary :=
       list_to_map
         [("total_items", Z.of_nat (length (items self)));
          ("critical", count_level CRITICAL (items self));
          ("high", count_level HIGH (items self));
          ("medium", count_level MEDIUM (items self));
          ("low", count_level LOW (items self))];
     changed_files := changed_files self |}.

Definition set_changed_files (self : ImpactReport) (files : list string)
  : ImpactReport :=
  {| overall_impact := overall_impact self;
     items := items self;
     summary := summary self;
     changed_files := files |}.

(** *** The rule set *)

(** One entry of [config["patterns"]]. A key read with [.get(key, [])] is
    the empty list when absent; [impact_level] is still the string of the
    configuration file. *)
Record PatternConfig : Type := {
  paths : list string;
  content_patterns : list string;
  cfg_impact_level : string;
  cfg_description : string;
  cfg_recommendation : option string;
}.

(** *** The hunk header *)

(** [(?:,\d+)?]: a comma and digits, when both are there. *)
Definition skip_comma_digits (s : string) : string :=
  match s with
  | String "," s' =>
      match span_digits s' with
      | ("", _) => s
      | (_, r) => r
      end
  | _ => s
  end.

(** [\d+]. *)
Definition digits1 (s : string) : option (string * string) :=
  match span_digits s with
  | ("", _) => None
  | dr => Some dr
  end.

(** [re.match(r'^@@ -\d+(?:,\d+)? \+(\d+)(?:,\d+)? @@', diff_line)],
    followed by [int(hunk_match.group(1))]. Each repetition is followed by a
    character that is not a digit, so the greedy reading is the only one. *)
Definition hunk_match (diff_line : string) : option Z :=
  r1 ← strip_prefix "@@ -" diff_line;
  '(_, r2) ← digits1 r1;
  r3 ← strip_prefix " +" (skip_comma_digits r2);
  '(c, r4) ← digits1 r3;
  _ ← strip_prefix " @@" (skip_comma_digits r4);
  Some (int_of_digits 0 c).

(** *** Exceptions *)

(** The exceptions that can leave the analysis, by the call that raises them. *)
Inductive exception : Type :=
| ValueError          (* [ImpactLevel(v)] for a [v] that no member has *)
| FindallRaised       (* out of [re.findall]: [re.error] for a malformed pattern *)
| SubprocessRaised.   (* out of [subprocess.run], other than [CalledProcessError]:
                         [UnicodeDecodeError] for an output that is not UTF-8,
                         [OSError] when the program cannot be started *)

(** What a call gives: a value, or an exception that leaves it. *)
Inductive result (A : Type) : Type :=
| Ok (a : A)
| Raise (e : exception).
Arguments Ok {A} a.
Arguments Raise {A} e.

#[global] Instance result_ret : MRet result := fun A a => Ok a.

#[global] Instance result_bind : MBind result := fun A B f m =>
  match m with
  | Ok a => f a
  | Raise e => Raise e
  end.

#[global] Instance result_fmap : FMap result := fun A B f m =>
  match m with
  | Ok a => Ok (f a)
  | Raise e => Raise e
  end.

(** The outcomes of a run of calls, in the order they are made: the first
    exception ends the run, else the lists are put end to end. *)
Fixpoint collect {A : Type} (outcomes : list (result (list A)))
  : result (list A) :=
  match outcomes with
  | [] => Ok []
  | Ok l :: rest => later ← collect rest; Ok (l ++ later)
  | Raise e :: _ => Raise e
  end.

(** The flags of a regular-expression call. *)
Inductive re_flags : Type := NOFLAG | IGNORECASE.

(** How [subprocess.run(..., capture_output=True, text=True, check=True)]
    ends: with the standard output, with [CalledProcessError] (the program
    ended with a status other than 0), or with another exception. *)
Inductive completed : Type :=
| Stdout (out : string)
| CalledProcessError
| OtherException.

(** *** The checker *)
Section Checker.

(** [re.findall(pattern, text, flags)]: one entry per match, a string or a
    tuple of strings according to the groups of the pattern; [None] when the
    call raises. [render] is the text an f-string gives an entry. *)
Context {Match : Type} `{Countable Match}.
Variable findall : string -> string -> re_flags -> option (list Match).
Variable render : Match -> string.

(** [git diff --name-only base_ref...head_ref] and
    [git diff base_ref...head_ref -- file_path], run as subprocesses. *)
Variable git_diff_names : string -> string -> completed.
Variable git_diff_file : string -> string -> string -> completed.

(** [self.config["patterns"].items()]. *)
Variable config_patterns : list (string * PatternConfig).

(** One entry of the list [check_content_patterns] returns. *)
Record found : Type := { pattern : Match; line_number : Z }.

Definition is_added (diff_line : string) : bool :=
  (startswith diff_line "+" && negb (startswith diff_line "+++"))%bool.

(** The loop of [check_content_patterns] over the lines of the diff;
    [emit] is what is appended for an added line, from its text and the
    value of [current_line]. *)
Fixpoint scan_diff {A : Type} (emit : string -> Z -> list A)
    (current_line : Z) (diff_lines : list string) : list A :=
  match diff_lines with
  | [] => []
  | diff_line :: rest =>
      match hunk_match diff_line with
      | Some c => scan_diff emit c rest
      | None =>
          if is_added diff_line then
            emit (drop1 diff_line) current_line
              ++ scan_diff emit (current_line + 1) rest
          else if (startswith diff_line "-"
                   || startswith diff_line "---")%bool then
            scan_diff emit current_line rest
          else if negb (startswith diff_line "\") then
            scan_diff emit (current_line + 1) rest
          else scan_diff emit current_line rest
      end
  end.

(** The two inner loops: every pattern, every match of it. The first call of
    [re.findall] that raises ends them. *)
Fixpoint line_matches (patterns : list string)
    (line_content : string) (current_line : Z) : result (list found) :=
  match patterns with
  | [] => Ok []
  | pattern :: rest =>
      match findall pattern line_content IGNORECASE with
      | None => Raise FindallRaised
      | Some found_texts =>
          later ← line_matches rest line_content current_line;
          Ok (List.map
                (fun match_text =>
                   {| pattern := match_text; line_number := current_line |})
                found_texts
              ++ later)
      end
  end.

(** [check_content_patterns]: the loop gives, for each added line in order,
    the outcome of the inner loops; the first that raises ends the call. *)
Definition check_content_patterns (diff_content : string)
    (patterns : list string) : result (list found) :=
  collect
    (scan_diff
       (fun line_content current_line =>
          [line_matches patterns line_content current_line])
       0 (split_on newline diff_content)).

(** The diff line mapper: the same loop, giving each added line with its
    line number. *)
Definition added_lines (diff_content : string) : list (string * Z) :=
  scan_diff (fun line_content current_line => [(line_content, current_line)])
            0 (split_on newline diff_content).

Definition check_path_patterns (file_path : string) (patterns : list string)
  : bool :=
  existsb (fun pattern => Fnmatch.fnmatch file_path pattern) patterns.

Definition detail_text (file_path : string) (m : found) : string :=
  "Found `" +:+ render (pattern m) +:+ "` in `" +:+ file_path
    +:+ "` at line " +:+ pretty (line_number m).

(** The deduplication loop of [analyze_file]. *)
Fixpoint collect_details (file_path : string) (matches : list found)
    (seen : gset (Match * Z)) (details : list string) : list string :=
  match matches with
  | [] => details
  | m :: rest =>
      let key := (pattern m, line_number m) in
      let '(seen', details') :=
        if decide (key ∈ seen) then (seen, details)
        else ({[ key ]} ∪ seen, details ++ [detail_text file_path m]) in
      if (5 <=? length details')%nat then details'
      else collect_details file_path rest seen' details'
  end.

(** The body of the loop of [analyze_file] up to the creation of the item:
    [Ok None] is [continue], [Ok (Some details)] reaches the creation, [Raise]
    is an exception out of [check_content_patterns]. *)
Definition rule_details (file_path diff_content : string)
    (pattern_config : PatternConfig) : result (option (list string)) :=
  let path_patterns := paths pattern_config in
  if (negb (bool_decide (path_patterns = []))
      && negb (check_path_patterns file_path path_patterns))%bool
  then Ok None
  else
    let patterns := content_patterns pattern_config in
    if bool_decide (patterns = []) then Ok (Some [])
    else
      matches ← check_content_patterns diff_content patterns;
      if bool_decide (matches = []) then Ok None
      else Ok (Some (collect_details file_path matches ∅ [])).

(** The loop of [analyze_file]. *)
Fixpoint analyze_rules (file_path diff_content : string)
    (patterns : list (string * PatternConfig)) (report : ImpactReport)
  : result ImpactReport :=
  match patterns with
  | [] => Ok report
  | (pattern_name, pattern_config) :: rest =>
      fired ← rule_details file_path diff_content pattern_config;
      match fired with
      | None => analyze_rules file_path diff_content rest report
      | Some details =>
          match ImpactLevel_of_value (cfg_impact_level pattern_config) with
          | None => Raise ValueError
          | Some level =>
              let item :=
                {| category := pattern_name;
                   impact_level := level;
                   file_path := file_path;
                   description := cfg_description pattern_config;
                   details := details;
                   recommendation := cfg_recommendation pattern_config |} in
              analyze_rules file_path diff_content rest (add_item report item)
          end
      end
  end.

(** [get_changed_files]: the names the subprocess printed, also stored in
    the report; on [CalledProcessError] the empty list, the report
    untouched. *)
Definition get_changed_files (base_ref head_ref : string)
    (report : ImpactReport) : result (list string * ImpactReport) :=
  match git_diff_names base_ref head_ref with
  | Stdout stdout =>
      let files :=
        List.filter (fun f => negb (String.eqb f ""))
                    (split_on newline (strip stdout)) in
      Ok (files, set_changed_files report files)
  | CalledProcessError => Ok ([], report)
  | OtherException => Raise SubprocessRaised
  end.

(** [get_file_diff]: on [CalledProcessError] the empty string. *)
Definition get_file_diff (file_path base_ref head_ref : string)
  : result string :=
  match git_diff_file file_path base_ref head_ref with
  | Stdout stdout => Ok stdout
  | CalledProcessError => Ok ""
  | OtherException => Raise SubprocessRaised
  end.

Definition analyze_file (file_path base_ref head_ref : string)
    (report : ImpactReport) : result ImpactReport :=
  diff_content ← get_file_diff file_path base_ref head_ref;
  analyze_rules file_path diff_content config_patterns report.

(** Files of the [.github] directory are passed over. *)
Definition skipped (file_path : string) : bool :=
  (startswith file_path ".github/" || String.eqb file_path ".github")%bool.

(** The loop of [analyze] over the changed files. *)
Fixpoint analyze_files (files : list string) (base_ref head_ref : string)
    (report : ImpactReport) : result ImpactReport :=
  match files with
  | [] => Ok report
  | file_path :: rest =>
      if skipped file_path then analyze_files rest base_ref head_ref report
      else
        report' ← analyze_file file_path base_ref head_ref report;
        analyze_files rest base_ref head_ref report'
  end.

(** [analyze]; [report] is [self.report]. *)
Definition analyze (base_ref head_ref : string) (report : ImpactReport)
  : result ImpactReport :=
  '(changed_files, report) ← get_changed_files base_ref head_ref report;
  match changed_files with
  | [] => Ok report
  | _ =>
      generate_summary <$> analyze_files changed_files base_ref head_ref report
  end.

End Checker.

(** *** The exit gate of [main] *)

(** The values [argparse] lets through for [--fail-on]. *)
Inductive FailOn : Type :=
| fail_on_critical | fail_on_high | fail_on_medium | fail_on_low.

Definition fail_on_value (f : FailOn) : string :=
  match f with
  | fail_on_critical => "critical"
  | fail_on_high => "high"
  | fail_on_medium => "medium"
  | fail_on_low => "low"
  end.

(** The end of [main], from the report [analyze] returned to the exit
    status. An exception that leaves [main] ends the process with status
    1. *)
Definition main_exit (fail_on : option FailOn) (report : ImpactReport) : Z :=
  match fail_on with
  | Some f =>
      match ImpactLevel_of_value (fail_on_value f) with
      | Some threshold =>
          if ImpactLevel_ge (overall_impact report) threshold then 1 else 0
      | None => 1
      end
  | None => 0
  end.

End ImpactCheck.

(** ** [send_slack_notification.py] *)
Module SlackNotify.

(** The values [json.dumps] is given. *)
#[local] Unset Elimination Schemes.
Inductive json : Type :=
| JString (s : string)
| JArray (l : list json)
| JObject (fields : list (string * json)).
#[local] Set Elimination Schemes.

Definition EMOJI : gmap string string :=
  list_to_map
    [("critical", ":red_circle:");
     ("high", ":large_orange_circle:");
     ("medium", ":large_yellow_circle:");
     ("low", ":large_green_circle:")].

(** PR statuses that do not trigger a notification. *)
Definition SKIP_PR_STATUSES : gset string := {[ "draft" ]}.

Record Request : Type := {
  full_url : string;
  data : string;
  headers : list (string * string);
  method : string;
}.

(** How a run of [main] ends. *)
Inductive outcome : Type :=
| Exited (code : Z)                  (* [sys.exit(code)] *)
| Returned                           (* the end of [main] is reached *)
| KeyError (key : string)            (* a variable of the environment is missing *)
| RequestValueError                  (* [urllib.request.Request] raised [ValueError] *)
| DeliveryError (err : string).      (* [urlopen] raised *)

(** A run: the requests handed to [urlopen], in order, and the outcome. *)
Record run : Type := { contacted : list Request; result : outcome }.

(** [s.rpartition(sep)[0]] when [sep] occurs in [s]: the text before its last
    occurrence. *)
Fixpoint before_last (sep : ascii) (s : string) : option string :=
  match s with
  | "" => None
  | String c s' =>
      match before_last sep s' with
      | Some h => Some (String c h)
      | None => if Ascii.eqb c sep then Some "" else None
      end
  end.

(** [s[:-1]]. *)
Fixpoint drop_last (s : string) : string :=
  match s with
  | "" => ""
  | String c s' =>
      match s' with
      | "" => ""
      | _ => String c (drop_last s')
      end
  end.

(** [s[-1:] == c]. *)
Fixpoint ends_with_char (s : string) (c : ascii) : bool :=
  match s with
  | "" => false
  | String a s' =>
      match s' with
      | "" => Ascii.eqb a c
      | _ => ends_with_char s' c
      end
  end.

(** [urllib.parse.unwrap]. *)
Definition unwrap (url : string) : string :=
  let url := strip url in
  let url :=
    if (startswith url "<" && ends_with_char url ">")%bool
    then strip (drop_last (drop1 url)) else url in
  if startswith url "URL:" then strip (drop1 (drop1 (drop1 (drop1 url))))
  else url.

(** [urllib.parse._splittag(url)[0]]. *)
Definition without_tag (url : string) : string :=
  default url (before_last "#" url).

(** [urllib.parse._splittype(url)[0] is not None]: the text starts with one
    or more characters other than [/] and [:], then a colon. *)
Fixpoint has_type_from (seen : bool) (url : string) : bool :=
  match url with
  | "" => false
  | String c url' =>
      if Ascii.eqb c ":" then seen
      else if Ascii.eqb c "/" then false
      else has_type_from true url'
  end.

(** The setter of [Request.full_url] finds a type in the URL; else it raises
    [ValueError] ("unknown url type"). *)
Definition url_type_known (url : string) : bool :=
  has_type_from false (without_tag (unwrap url)).

Section Sender.

(** [str.upper], [json.dumps(_).encode()] and [urlopen]; the last answers
    [Some err] when it raises. [urlparse_accepts] tells whether
    [urllib.parse.urlparse], which the constructor of [Request] calls for the
    host, returns on the URL; it raises [ValueError] on a malformed host. *)
Variable upper : string -> string.
Variable json_dumps : json -> string.
Variable urlparse_accepts : string -> bool.
Variable urlopen : Request -> option string.

(** [urllib.request.Request(url, data=..., headers=..., method=...)]; [None]
    is its [ValueError]. The record keeps the arguments of the call:
    [full_url] is the URL as it is given. *)
Definition make_request (url data : string) (headers : list (string * string))
    (method : string) : option Request :=
  if (url_type_known url && urlparse_accepts url)%bool
  then Some {| full_url := url; data := data; headers := headers;
               method := method |}
  else None.

Definition build_payload (repo pr_number pr_url impact : string) : json :=
  let emoji := default ":white_circle:" (EMOJI !! impact) in
  JObject
    [("blocks",
      JArray
        [JObject
           [("type", JString "header");
            ("text",
             JObject [("type", JString "plain_text");
                      ("text", JString "SC Environment Impact Assessment")])];
         JObject
           [("type", JString "section");
            ("fields",
             JArray
               [JObject [("type", JString "mrkdwn");
                         ("text", JString ("*Repository:*" +:+ String newline repo))];
                JObject [("type", JString "mrkdwn");
                         ("text",
                          JString ("*Pull Request:*" +:+ String newline
                                     ("<" +:+ pr_url +:+ "|#" +:+ pr_number +:+ ">")))];
                JObject [("type", JString "mrkdwn");
                         ("text",
                          JString ("*Overall Impact:*" +:+ String newline
                                     (emoji +:+ " " +:+ upper impact)))]])];
         JObject
           [("type", JString "actions");
            ("elements",
             JArray
               [JObject
                  [("type", JString "button");
                   ("text", JObject [("type", JString "plain_text");
                                     ("text", JString "View Pull Request")]);
                   ("url", JString pr_url)]])]])].

(** [os.environ[key]], then the rest of the run. *)
Definition with_env (environ : gmap string string) (key : string)
    (k : string -> run) : run :=
  match environ !! key with
  | Some v => k v
  | None => {| contacted := []; result := KeyError key |}
  end.

Definition main (environ : gmap string string) : run :=
  match environ !! "SC_ASSESSOR_SLACK_URL" with
  | None | Some "" => {| contacted := []; result := Exited 0 |}
  | Some webhook_url =>
      let pr_status := strip (default "" (environ !! "PR_STATUS")) in
      if decide (pr_status ∈ SKIP_PR_STATUSES) then
        {| contacted := []; result := Exited 0 |}
      else
        with_env environ "GITHUB_REPOSITORY" (fun repo =>
        with_env environ "GITHUB_SERVER_URL" (fun server_url =>
        with_env environ "PR_NUMBER" (fun pr_number =>
        with_env environ "OVERALL_IMPACT" (fun impact =>
          let pr_url :=
            server_url +:+ "/" +:+ repo +:+ "/pull/" +:+ pr_number in
          let payload := build_payload repo pr_number pr_url impact in
          match make_request webhook_url (json_dumps payload)
                  [("Content-Type", "application/json")] "POST" with
          | None => {| contacted := []; result := RequestValueError |}
          | Some req =>
              match urlopen req with
              | Some err =>
                  {| contacted := [req]; result := DeliveryError err |}
              | None => {| contacted := [req]; result := Returned |}
              end
          end))))
  end.

End Sender.

End SlackNotify.

(** ** Definitions used by the statements *)

Import ImpactCheck.

(** The fixed rank NONE < LOW < MEDIUM < HIGH < CRITICAL. *)
Definition rank (l : ImpactLevel) : nat :=
  match l with
  | NONE => 0
  | LOW => 1
  | MEDIUM => 2
  | HIGH => 3
  | CRITICAL => 4
  end.

(** The larger of two severities under [rank]. *)
Definition max_level (a b : ImpactLevel) : ImpactLevel :=
  if (rank a <? rank b)%nat then b else a.

(** The largest severity of a list, NONE when it is empty. *)
Definition max_of (levels : list ImpactLevel) : ImpactLevel :=
  foldr max_level NONE levels.

(** The report after the evidences have been added, one after the other. *)
Definition add_items (report : ImpactReport) (evidences : list ImpactItem)
  : ImpactReport :=
  foldl add_item report evidences.

(** The number of evidences of one severity. *)
Definition tally (level : ImpactLevel) (l : list ImpactItem) : Z :=
  Z.of_nat (length (filter (fun i => impact_level i = level) l)).

(** The severity a [--fail-on] choice names. *)
Definition fail_on_level (f : FailOn) : ImpactLevel :=
  match f with
  | fail_on_critical => CRITICAL
  | fail_on_high => HIGH
  | fail_on_medium => MEDIUM
  | fail_on_low => LOW
  end.

(** What the diff line mapper gives for one added line. *)
Definition pair_line (line_content : string) (current_line : Z)
  : list (string * Z) := [(line_content, current_line)].

(** A hunk header. *)
Definition is_header (diff_line : string) : bool :=
  bool_decide (is_Some (hunk_match diff_line)).

(** A context line: not a header, not added, not removed, not a backslash
    marker. *)
Definition is_context (diff_line : string) : bool :=
  (negb (is_header diff_line) && negb (is_added diff_line)
   && negb (startswith diff_line "-") && negb (startswith diff_line "\"))%bool.

(** The lines that move the cursor: added lines and context lines. *)
Definition advances (diff_line : string) : bool :=
  (is_added diff_line || is_context diff_line)%bool.

(** The cursor after the lines [diff_lines], from the value [current_line]. *)
Fixpoint cursor_after (current_line : Z) (diff_lines : list string) : Z :=
  match diff_lines with
  | [] => current_line
  | diff_line :: rest =>
      match hunk_match diff_line with
      | Some c => cursor_after c rest
      | None =>
          cursor_after
            (if advances diff_line then current_line + 1 else current_line) rest
      end
  end.

(** The keys in the order they are first met, given those already seen. *)
Fixpoint first_seen {K : Type} `{Countable K} (seen : gset K) (l : list K)
  : list K :=
  match l with
  | [] => []
  | x :: l' =>
      if decide (x ∈ seen) then first_seen seen l'
      else x :: first_seen ({[ x ]} ∪ seen) l'
  end.

(** The key of a match: the matched text and the line number. *)
Definition key_of {Match : Type} (m : found) : Match * Z :=
  (pattern m, line_number m).

(** The detail entry of a key. *)
Definition key_text {Match : Type} (render : Match -> string)
    (file_path : string) (k : Match * Z) : string :=
  detail_text render file_path {| pattern := k.1; line_number := k.2 |}.

(** The path filter of a rule lets a file through. *)
Definition path_passes (file_path : string) (cfg : PatternConfig) : Prop :=
  paths cfg = []
  \/ exists p, p ∈ paths cfg /\ Fnmatch.fnmatch file_path p = true.

(** [text] is the text of an added line of the diff: one of its lines is
    [+] followed by [text], and does not start with [+++]. *)
Definition added_text (diff_content text : string) : Prop :=
  String "+" text ∈ split_on newline diff_content
  /\ startswith (String "+" text) "+++" = false.

(** The content filter of a rule lets a diff through: some pattern finds a
    match in the text of some added line, letter case being ignored. *)
Definition content_passes {Match : Type}
    (findall : string -> string -> re_flags -> option (list Match))
    (diff_content : string) (cfg : PatternConfig) : Prop :=
  content_patterns cfg = []
  \/ exists p text found_texts,
       p ∈ content_patterns cfg
       /\ added_text diff_content text
       /\ findall p text IGNORECASE = Some found_texts
       /\ found_texts <> [].



(** ** A finder for patterns without metacharacters

    On a pattern that is plain text, [re.findall] gives the occurrences of
    the text, leftmost first and without overlap; with [re.IGNORECASE] they
    are compared without regard to case. On the pattern that is one opening
    parenthesis it raises. It serves in the examples. *)

Definition fold_case (c : ascii) : ascii :=
  let n := N_of_ascii c in
  if ((N.leb 65 n && N.leb n 90)
      || (N.leb 192 n && N.leb n 222 && negb (N.eqb n 215)))%bool
  then ascii_of_N (n + 32) else c.

Definition same_char (flags : re_flags) (a b : ascii) : bool :=
  match flags with
  | IGNORECASE => Ascii.eqb (fold_case a) (fold_case b)
  | NOFLAG => Ascii.eqb a b
  end.

(** The text of [s] that the plain pattern [p] matches at its head. *)
Fixpoint match_head (flags : re_flags) (p s : string) {struct p}
  : option string :=
  match p with
  | "" => Some ""
  | String a p' =>
      match s with
      | "" => None
      | String b s' =>
          if same_char flags a b
          then String b <$> match_head flags p' s'
          else None
      end
  end.

Fixpoint findall_plain_from (flags : re_flags) (skip : nat) (p s : string)
  : list string :=
  match s with
  | "" => match skip, match_head flags p "" with
          | O, Some m => [m]
          | _, _ => []
          end
  | String _ s' =>
      match skip with
      | S k => findall_plain_from flags k p s'
      | O =>
          match match_head flags p s with
          | Some m =>
              m :: findall_plain_from flags (Nat.pred (String.length p)) p s'
          | None => findall_plain_from flags 0 p s'
          end
      end
  end.

Definition findall_plain (p s : string) (flags : re_flags)
  : option (list string) :=
  if String.eqb p "(" then None else Some (findall_plain_from flags 0 p s).

(** ** Example inputs *)

Definition unlines (l : list string) : string :=
  String.concat (String newline "") l.

(** Two hunks: one line added at position 2, one at position 12. *)
Definition two_hunks : string :=
  unlines ["@@ -1,2 +1,3 @@"; " first"; "+second"; " third";
           "@@ -10,1 +11,2 @@"; " eleventh"; "+twelfth"].

Definition path_rule (globs : list string) : PatternConfig :=
  {| paths := globs; content_patterns := [];
     cfg_impact_level := "high";
     cfg_description := "ClowdApp configuration change";
     cfg_recommendation := None |}.

Definition content_rule (level : string) (patterns : list string)
  : PatternConfig :=
  {| paths := []; content_patterns := patterns;
     cfg_impact_level := level;
     cfg_description := "Kessel integration change";
     cfg_recommendation := None |}.

(** What one rule adds for a file: nothing, one evidence, or an exception. *)
Definition rule_evidence {Match : Type} `{Countable Match}
    (findall : string -> string -> re_flags -> option (list Match))
    (render : Match -> string)
    (file_path diff_content : string) (rule : string * PatternConfig)
  : result (list ImpactItem) :=
  fired ← rule_details findall render file_path diff_content rule.2;
  match fired with
  | None => Ok []
  | Some details =>
      match ImpactLevel_of_value (cfg_impact_level rule.2) with
      | None => Raise ValueError
      | Some level =>
          Ok [{| category := rule.1;
                 impact_level := level;
                 file_path := file_path;
                 description := cfg_description rule.2;
                 details := details;
                 recommendation := cfg_recommendation rule.2 |}]
      end
  end.

(** What the rules add for a file, in their order. *)
Definition rules_evidences {Match : Type} `{Countable Match}
    (findall : string -> string -> re_flags -> option (list Match))
    (render : Match -> string)
    (file_path diff_content : string) (rules : list (string * PatternConfig))
  : result (list ImpactItem) :=
  collect (rule_evidence findall render file_path diff_content <$> rules).

(** A pattern character that [fnmatch] reads as itself. *)
Definition plain_char (c : ascii) : bool :=
  negb (Ascii.eqb c "*"%char || Ascii.eqb c "?"%char || Ascii.eqb c "["%char)%bool.

(** A pattern text without wildcard or set. *)
Definition plain (s : string) : Prop :=
  forallb plain_char (list_ascii_of_string s) = true.

(** No target URL is configured: the variable is absent or empty. *)
Definition no_target (environ : gmap string string) : Prop :=
  environ !! "SC_ASSESSOR_SLACK_URL" = None
  \/ environ !! "SC_ASSESSOR_SLACK_URL" = Some "".

(** The change is a draft. *)
Definition is_draft (environ : gmap string string) : Prop :=
  strip (default "" (environ !! "PR_STATUS")) = "draft".

(** A rule set for the examples: the deployment files by path, one keyword by
    content. *)
Definition example_rules : list (string * PatternConfig) :=
  [("clowdapp_config", path_rule ["deploy/clowdapp.yml"; "deploy/*.yml"]);
   ("kessel_integration", content_rule "critical" ["kessel"; "KESSEL"])].

Definition example_diff : string :=
  unlines ["@@ -1,1 +1,2 @@"; " services:"; "+  - uses Kessel"].

(** A diff whose one added line holds seven distinct matches. *)
Definition seven_letters : PatternConfig :=
  content_rule "high" ["a"; "b"; "c"; "d"; "e"; "f"; "g"].

Definition seven_diff : string := unlines ["@@ -0,0 +1 @@"; "+a b c d e f g"].

(** A rule that every path and every diff with an added line satisfy. *)
Definition catch_all : list (string * PatternConfig) :=
  [("everything", content_rule "critical" [""])].

(** What [git diff --name-only] prints for a deployment file and a workflow
    file. *)
Definition changed_names : string :=
  unlines ["deploy/clowdapp.yml"; ".github/workflows/ci.yml"; ""].

(** ** The rest of [sc_environment_impact_check.py] *)

(** *** [_load_config] *)

(** The built-in rule set, in the order of the dictionary literal. *)
Definition default_patterns : list (string * PatternConfig) :=
  [("database_migrations",
    {| paths := ["migrations/versions/**/*.py"; "db/migrate/**/*.rb"];
       content_patterns := [];
       cfg_impact_level := "high";
       cfg_description := "Database migration detected";
       cfg_recommendation :=
         Some "Review migration for SC Environment compatibility and timing requirements" |});
   ("clowdapp_config",
    {| paths := ["deploy/clowdapp.yml"; "deploy/*.yml"];
       content_patterns := [];
       cfg_impact_level := "high";
       cfg_description := "ClowdApp configuration change";
       cfg_recommendation :=
         Some "Verify all changes are compatible with SC Environment" |});
   ("kessel_integration",
    {| paths := ["**/*kessel*"];
       content_patterns := ["kessel"; "KESSEL"];
       cfg_impact_level := "critical";
       cfg_description := "Kessel integration change";
       cfg_recommendation :=
         Some "Kessel may is not available in SC Environment. Ensure feature flags and bypass options are configured." |});
   ("aws_s3",
    {| paths := [];
       content_patterns :=
         ["S3.*bucket"; "aws.*s3"; "s3\.(get|put|delete|list)"; "boto3.*s3";
          "S3_.*BUCKET"];
       cfg_impact_level := "high";
       cfg_description := "AWS S3 integration change";
       cfg_recommendation :=
         Some "Verify S3 bucket configuration for SC Environment region and permissions" |});
   ("aws_rds",
    {| paths := [];
       content_patterns :=
         ["RDS"; "aws.*rds"; "aurora"; "database.*endpoint";
          "DB_HOST.*amazonaws"];
       cfg_impact_level := "high";
       cfg_description := "AWS RDS configuration change";
       cfg_recommendation :=
         Some "Ensure RDS endpoints and credentials are configured for SC Environment" |});
   ("aws_elasticache",
    {| paths := [];
       content_patterns :=
         ["elasticache"; "redis.*amazonaws"; "cache\..*\.amazonaws"];
       cfg_impact_level := "medium";
       cfg_description := "AWS ElastiCache configuration change";
       cfg_recommendation :=
         Some "Verify ElastiCache endpoints for SC Environment compatibility" |});
   ("secrets_management",
    {| paths := [];
       content_patterns :=
         ["secretRef"; "secretName:"; "secret.*key"; "AWS.*SECRET"];
       cfg_impact_level := "medium";
       cfg_description := "Secrets configuration change";
       cfg_recommendation :=
         Some "Ensure secrets are available in SC Environment secret store" |});
   ("kafka_topics",
    {| paths := [];
       content_patterns := ["topicName:"; "KAFKA.*TOPIC"; "kafkaTopics:"];
       cfg_impact_level := "medium";
       cfg_description := "Kafka topic configuration change";
       cfg_recommendation :=
         Some "New topics may need to be created in SC Environment Kafka cluster" |});
   ("external_dependencies",
    {| paths := [];
       content_patterns :=
         ["dependencies:"; "http://"; "https://(?!github\.com)"];
       cfg_impact_level := "low";
       cfg_description := "External dependency change";
       cfg_recommendation :=
         Some "Verify external endpoints are accessible from SC Environment" |});
   ("environment_config",
    {| paths := [];
       content_patterns :=
         ["ENV_NAME"; "ENVIRONMENT"; "production.*config"; "stage.*config"];
       cfg_impact_level := "low";
       cfg_description := "Environment configuration change detected";
       cfg_recommendation :=
         Some "Review environment-specific settings to ensure SC Environment is properly configured." |});
   ("feature_flags",
    {| paths := [];
       content_patterns :=
         ["UNLEASH"; "feature.*flag"; "BYPASS_"; "ENABLE_.*FEATURE"];
       cfg_impact_level := "low";
       cfg_description := "Feature flag change detected";
       cfg_recommendation :=
         Some "Verify feature flags are properly configured for SC Environment. Test bypass options for services not available in SC Environment." |})].


(** *** [format_markdown] *)

(** The characters outside ASCII of the texts below stand as their UTF-8
    bytes. *)
Definition impact_emoji (level : ImpactLevel) : string :=
  match level with
  | CRITICAL => "🔴"
  | HIGH => "🟠"
  | MEDIUM => "🟡"
  | LOW => "🟢"
  | NONE => "⚪"
  end.

(** [str.upper] on ASCII text, which the values of [ImpactLevel] are. *)
Definition upper_char (c : ascii) : ascii :=
  let n := N_of_ascii c in
  if (N.leb 97 n && N.leb n 122)%bool then ascii_of_N (n - 32) else c.

Fixpoint upper (s : string) : string :=
  match s with
  | "" => ""
  | String c s' => String (upper_char c) (upper s')
  end.

(** [by_level.setdefault(item.impact_level, []).append(item)], the dictionary
    kept as the list of its entries; the keys are compared with [__eq__]. *)
Fixpoint setdefault_append (by_level : list (ImpactLevel * list ImpactItem))
    (item : ImpactItem) : list (ImpactLevel * list ImpactItem) :=
  match by_level with
  | [] => [(impact_level item, [item])]
  | (level, group) :: rest =>
      if ImpactLevel_eq level (impact_level item)
      then (level, group ++ [item]) :: rest
      else (level, group) :: setdefault_append rest item
  end.

(** [by_level.get(level, [])]. *)
Fixpoint by_level_get (by_level : list (ImpactLevel * list ImpactItem))
    (level : ImpactLevel) : list ImpactItem :=
  match by_level with
  | [] => []
  | (l, group) :: rest =>
      if ImpactLevel_eq l level then group else by_level_get rest level
  end.

(** The lines of one item. An empty recommendation is not printed. *)
Definition item_lines (item : ImpactItem) : list string :=
  ["**" +:+ description item +:+ "**";
   "- File: `" +:+ file_path item +:+ "`";
   "- Category: `" +:+ category item +:+ "`"]
  ++ (match details item with
      | [] => []
      | ds => "- Details:" :: List.map (fun detail => "  - " +:+ detail) ds
      end)
  ++ (match recommendation item with
      | None | Some "" => []
      | Some text => ["- ⚠️ **Recommendation:** " +:+ text]
      end)
  ++ [""].

(** The lines of one level: nothing when no item has it. *)
Definition level_lines (by_level : list (ImpactLevel * list ImpactItem))
    (level : ImpactLevel) : list string :=
  match by_level_get by_level level with
  | [] => []
  | group =>
      ["#### " +:+ impact_emoji level +:+ " " +:+ upper (value level)
         +:+ " Impact"; ""]
      ++ flat_map item_lines group
  end.

(** The lines under "Detailed Findings". *)
Definition findings_lines (report : ImpactReport) : list string :=
  let by_level := foldl setdefault_append [] (items report) in
  flat_map (level_lines by_level) [CRITICAL; HIGH; MEDIUM; LOW].

Definition count_line (label : string) (n : Z) : list string :=
  if 0 <? n then [label +:+ pretty n] else [].

(** The lines of the summary block; [None] is the [KeyError] of a key that
    [summary] lacks. *)
Definition summary_lines (report : ImpactReport) : option (list string) :=
  total ← summary report !! "total_items";
  if 0 <? total then
    critical ← summary report !! "critical";
    high ← summary report !! "high";
    medium ← summary report !! "medium";
    low ← summary report !! "low";
    Some (["### 📊 Summary"; ""; "- **Total Issues:** " +:+ pretty total]
          ++ count_line "- 🔴 Critical: " critical
          ++ count_line "- 🟠 High: " high
          ++ count_line "- 🟡 Medium: " medium
          ++ count_line "- 🟢 Low: " low
          ++ [""])
  else Some [].

Definition head_lines (report : ImpactReport) : list string :=
  ["<!-- sc-environment-impact-check -->";
   "## 🏛️ SC Environment Impact Assessment";
   "";
   "**Overall Impact:** " +:+ impact_emoji (overall_impact report) +:+ " **"
     +:+ upper (value (overall_impact report)) +:+ "**";
   ""].

Definition no_impact_lines : list string :=
  ["✅ No SC Environment-specific impacts detected in this PR.";
   "";
   "<details>";
   "<summary>What we checked</summary>";
   "";
   "This PR was automatically scanned for:";
   "- Database migrations";
   "- ClowdApp configuration changes";
   "- Kessel integration changes";
   "- AWS service integrations (S3, RDS, ElastiCache)";
   "- Kafka topic changes";
   "- Secrets management changes";
   "- External dependencies";
   "</details>"].

Definition action_lines : list string :=
  ["### ✅ Required Actions";
   "";
   "- [ ] Review all findings above";
   "- [ ] Verify SC Environment compatibility for all detected changes";
   "- [ ] Update deployment documentation if needed";
   "- [ ] Coordinate with ROSA Core team or deployment timeline";
   ""].

Definition footer_lines : list string :=
  ["---";
   "*This assessment was automatically generated. Please review carefully and consult with the ROSA Core team for critical/high impact changes.*"].

(** The list [lines] of [format_markdown], before the final join. *)
Definition markdown_lines (report : ImpactReport) : option (list string) :=
  if ImpactLevel_eq (overall_impact report) NONE then
    Some (head_lines report ++ no_impact_lines)
  else
    block ← summary_lines report;
    Some (head_lines report ++ block
          ++ ["### 🔍 Detailed Findings"; ""] ++ findings_lines report
          ++ action_lines ++ footer_lines).

(** [format_markdown]; the pull-request number it is given is not used. *)
Definition format_markdown (report : ImpactReport) : option string :=
  unlines <$> markdown_lines report.

(** *** Definitions used by the further statements *)

(** A hunk header as the diff prints it: the start lines in decimal, each
    with an optional count, and the text after the closing marker. *)
Definition count_text (count : option N) : string :=
  match count with
  | Some n => "," +:+ pretty n
  | None => ""
  end.

Definition hunk_header (a : N) (b : option N) (c : N) (d : option N)
    (rest : string) : string :=
  "@@ -" +:+ pretty a +:+ count_text b +:+ " +" +:+ pretty c +:+ count_text d
    +:+ " @@" +:+ rest.

(** The overall severity of a report is the largest severity of its items. *)
Definition consistent (r : ImpactReport) : Prop :=
  overall_impact r = max_of (impact_level <$> items r).

(** The files [analyze] looks at. *)
Definition analysed (files : list string) : list string :=
  List.filter (fun f => negb (skipped f)) files.

(** What the analysis adds for one file: the exception of the subprocess, or
    what the rules add on its diff. *)
Definition file_evidences {Match : Type} `{Countable Match}
    (findall : string -> string -> re_flags -> option (list Match))
    (render : Match -> string)
    (git_diff_file : string -> string -> string -> completed)
    (config_patterns : list (string * PatternConfig))
    (base_ref head_ref file_path : string) : result (list ImpactItem) :=
  diff_content ← get_file_diff git_diff_file file_path base_ref head_ref;
  rules_evidences findall render file_path diff_content config_patterns.

(** What the analysis adds for the files: for each file that is not passed
    over, in the order of the list, what the rules add in their order; the
    first exception ends it. *)
Definition analysis_evidences {Match : Type} `{Countable Match}
    (findall : string -> string -> re_flags -> option (list Match))
    (render : Match -> string)
    (git_diff_file : string -> string -> string -> completed)
    (config_patterns : list (string * PatternConfig))
    (base_ref head_ref : string) (files : list string)
  : result (list ImpactItem) :=
  collect (file_evidences findall render git_diff_file config_patterns
             base_ref head_ref <$> analysed files).

(** The rule fires on the file: its diff is retrieved, or taken as empty, and
    the body of the loop reaches the creation of the item. *)
Definition fires_on {Match : Type} `{Countable Match}
    (findall : string -> string -> re_flags -> option (list Match))
    (render : Match -> string)
    (git_diff_file : string -> string -> string -> completed)
    (base_ref head_ref file_path : string) (cfg : PatternConfig) : Prop :=
  exists diff_content details,
    get_file_diff git_diff_file file_path base_ref head_ref = Ok diff_content
    /\ rule_details findall render file_path diff_content cfg
       = Ok (Some details).


(** What holds of every evidence the analysis of [files] can add. *)
Definition from_analysis (config_patterns : list (string * PatternConfig))
    (files : list string) (e : ImpactItem) : Prop :=
  file_path e ∈ analysed files
  /\ category e ∈ config_patterns.*1
  /\ (length (details e) <= 5)%nat.

(** The first of the variables a notification needs that the environment
    lacks. *)
Definition first_missing (environ : gmap string string) : option string :=
  List.find (fun key => bool_decide (environ !! key = None))
    ["GITHUB_REPOSITORY"; "GITHUB_SERVER_URL"; "PR_NUMBER"; "OVERALL_IMPACT"].

(** The lines of one level, from the items that have it. *)
Definition group_lines (level : ImpactLevel) (group : list ImpactItem)
  : list string :=
  match group with
  | [] => []
  | _ =>
      ["#### " +:+ impact_emoji level +:+ " " +:+ upper (value level)
         +:+ " Impact"; ""]
      ++ flat_map item_lines group
  end.

(** The text has no line break. *)
Definition one_line (s : string) : Prop :=
  forallb (fun c => negb (Ascii.eqb c newline)) (list_ascii_of_string s) = true.

(** *** Further example inputs *)

Definition example_names (base_ref head_ref : string) : completed :=
  Stdout changed_names.

Definition example_diffs (file_path base_ref head_ref : string) : completed :=
  Stdout example_diff.

Definition no_diffs (file_path base_ref head_ref : string) : completed :=
  CalledProcessError.

(** A diff that only removes a line. *)
Definition removal_diff : string :=
  unlines ["@@ -1,2 +1,1 @@"; " services:"; "-  - uses Kessel"].

Definition example_item (level : ImpactLevel) : ImpactItem :=
  {| category := "secrets_management";
     impact_level := level;
     file_path := "deploy/clowdapp.yml";
     description := "Secrets configuration change";
     details := [];
     recommendation := None |}.

(** An environment with a target and an open pull request, but without the
    server address. *)
Definition example_environ : gmap string string :=
  list_to_map
    [("SC_ASSESSOR_SLACK_URL", "https://hooks.example/T0");
     ("PR_STATUS", "open");
     ("GITHUB_REPOSITORY", "org/repo")].

(** An environment with all a notification needs. *)
Definition complete_environ : gmap string string :=
  list_to_map
    [("SC_ASSESSOR_SLACK_URL", "https://hooks.example/T0");
     ("PR_STATUS", "open");
     ("GITHUB_REPOSITORY", "org/repo");
     ("GITHUB_SERVER_URL", "https://github.example");
     ("PR_NUMBER", "7");
     ("OVERALL_IMPACT", "high")].

(** ** The severity order *)

Lemma ImpactLevel_eq_true (a b : ImpactLevel) :
  ImpactLevel_eq a b = true <-> a = b.
Proof. destruct a, b; vm_compute; split; congruence. Qed.

Lemma index_rank (a : ImpactLevel) :
  index a [NONE; LOW; MEDIUM; HIGH; CRITICAL] = Some (rank a).
Proof. destruct a; reflexivity. Qed.

Lemma ImpactLevel_lt_rank (a b : ImpactLevel) :
  ImpactLevel_lt a b = (rank a <? rank b)%nat.
Proof. unfold ImpactLevel_lt. rewrite !index_rank. reflexivity. Qed.

Lemma ImpactLevel_gt_rank (a b : ImpactLevel) :
  ImpactLevel_gt a b = (rank b <? rank a)%nat.
Proof. destruct a, b; reflexivity. Qed.

Lemma ImpactLevel_ge_rank (a b : ImpactLevel) :
  ImpactLevel_ge a b = (rank b <=? rank a)%nat.
Proof. destruct a, b; reflexivity. Qed.

Lemma rank_inj (a b : ImpactLevel) : rank a = rank b -> a = b.
Proof. destruct a, b; simpl; congruence. Qed.

Lemma ImpactLevel_of_value_value (l : ImpactLevel) :
  ImpactLevel_of_value (value l) = Some l.
Proof. destruct l; reflexivity. Qed.

Lemma fail_on_threshold (f : FailOn) :
  ImpactLevel_of_value (fail_on_value f) = Some (fail_on_level f).
Proof. destruct f; reflexivity. Qed.

Lemma max_level_rank (a b : ImpactLevel) :
  rank (max_level a b) = Nat.max (rank a) (rank b).
Proof. destruct a, b; reflexivity. Qed.

Lemma max_level_comm (a b : ImpactLevel) : max_level a b = max_level b a.
Proof. apply rank_inj. rewrite !max_level_rank. lia. Qed.

Lemma max_level_assoc (a b c : ImpactLevel) :
  max_level a (max_level b c) = max_level (max_level a b) c.
Proof. apply rank_inj. rewrite !max_level_rank. lia. Qed.

Lemma max_level_idem (a : ImpactLevel) : max_level a a = a.
Proof. apply rank_inj. rewrite max_level_rank. lia. Qed.

Lemma max_level_NONE_l (a : ImpactLevel) : max_level NONE a = a.
Proof. by destruct a. Qed.

(** ** The report *)

Lemma add_item_overall (r : ImpactReport) (e : ImpactItem) :
  overall_impact (add_item r e) = max_level (overall_impact r) (impact_level e).
Proof. simpl. rewrite ImpactLevel_gt_rank. reflexivity. Qed.

Lemma add_items_items (evs : list ImpactItem) (r : ImpactReport) :
  items (add_items r evs) = items r ++ evs.
Proof.
  revert r. induction evs as [|e evs IH]; intros r; simpl.
  - by rewrite app_nil_r.
  - unfold add_items in IH. rewrite IH. simpl. by rewrite <- app_assoc.
Qed.

Lemma add_items_overall (evs : list ImpactItem) (r : ImpactReport) :
  overall_impact (add_items r evs)
  = max_level (overall_impact r) (max_of (impact_level <$> evs)).
Proof.
  revert r. induction evs as [|e evs IH]; intros r; simpl.
  - destruct (overall_impact r); reflexivity.
  - unfold add_items in IH. rewrite IH, add_item_overall.
    by rewrite <- max_level_assoc.
Qed.

Lemma max_of_upper (levels : list ImpactLevel) (l : ImpactLevel) :
  l ∈ levels -> (rank l <= rank (max_of levels))%nat.
Proof.
  induction levels as [|x xs IH]; intros Hin.
  - by apply not_elem_of_nil in Hin.
  - simpl. rewrite max_level_rank. apply elem_of_cons in Hin as [->|Hin].
    + lia.
    + specialize (IH Hin). lia.
Qed.

Lemma max_of_attained (levels : list ImpactLevel) :
  max_of levels = NONE \/ max_of levels ∈ levels.
Proof.
  induction levels as [|x xs IH]; [by left|].
  simpl. unfold max_level.
  change (foldr max_level NONE xs) with (max_of xs).
  destruct (rank x <? rank (max_of xs))%nat eqn:E.
  - destruct IH as [IH|IH].
    + rewrite IH in E. simpl in E.
      apply Nat.ltb_lt in E. lia.
    + right. apply list_elem_of_further. exact IH.
  - right. apply list_elem_of_here.
Qed.

Lemma max_of_perm (l1 l2 : list ImpactLevel) :
  l1 ≡ₚ l2 -> max_of l1 = max_of l2.
Proof.
  induction 1 as [|x l1 l2 _ IH|x y l|l1 l2 l3 _ IH1 _ IH2]; simpl.
  - reflexivity.
  - change (max_level x (max_of l1) = max_level x (max_of l2)). by rewrite IH.
  - change (max_level y (max_level x (max_of l))
            = max_level x (max_level y (max_of l))).
    rewrite !max_level_assoc. by rewrite (max_level_comm y x).
  - congruence.
Qed.

(** C3: after any sequence of evidences has been added to a new report, the
    overall severity is the maximum of their severities under the fixed rank
    (NONE for the empty sequence): it is above every one of them and is NONE or
    the severity of one of them; it is the same for every order of insertion;
    and the binary maximum is associative, commutative and idempotent. *)
Theorem overall_impact_is_maximum (evidences : list ImpactItem) :
  let overall := overall_impact (add_items new_report evidences) in
  overall = max_of (impact_level <$> evidences)
  /\ (forall e, e ∈ evidences -> (rank (impact_level e) <= rank overall)%nat)
  /\ (overall = NONE \/ exists e, e ∈ evidences /\ impact_level e = overall)
  /\ (forall evidences', evidences ≡ₚ evidences' ->
        overall_impact (add_items new_report evidences') = overall)
  /\ (forall a b c, max_level a (max_level b c) = max_level (max_level a b) c)
  /\ (forall a b, max_level a b = max_level b a)
  /\ (forall a, max_level a a = a).
Proof.
  intros overall.
  assert (Hmax : overall = max_of (impact_level <$> evidences)).
  { unfold overall. rewrite add_items_overall. apply max_level_NONE_l. }
  split; [exact Hmax|]. split; [|split; [|split]].
  - intros e He. rewrite Hmax. apply max_of_upper.
    apply list_elem_of_fmap. by exists e.
  - rewrite Hmax.
    destruct (max_of_attained (impact_level <$> evidences)) as [Hn|Hin].
    + by left.
    + right. apply list_elem_of_fmap in Hin as (e & He1 & He2). by exists e.
  - intros evs' Hperm. rewrite Hmax, add_items_overall.
    change (overall_impact new_report) with NONE. rewrite max_level_NONE_l.
    apply max_of_perm. by rewrite Hperm.
  - split; [exact max_level_assoc|]. split; [exact max_level_comm|].
    exact max_level_idem.
Qed.

(** ** The summary *)

Lemma count_level_tally (level : ImpactLevel) (l : list ImpactItem) :
  count_level level l = tally level l.
Proof.
  unfold count_level, tally. f_equal.
  induction l as [|i l IH]; [reflexivity|].
  simpl. rewrite filter_cons.
  destruct (ImpactLevel_eq (impact_level i) level) eqn:E.
  - apply ImpactLevel_eq_true in E. rewrite decide_True by done.
    simpl. by rewrite IH.
  - rewrite decide_False; [exact IH|].
    intros Heq. apply ImpactLevel_eq_true in Heq. congruence.
Qed.

Lemma tally_cons (level : ImpactLevel) (i : ImpactItem) (l : list ImpactItem) :
  tally level (i :: l)
  = (if decide (impact_level i = level) then 1 else 0) + tally level l.
Proof.
  unfold tally. rewrite filter_cons.
  destruct (decide (impact_level i = level)); simpl length; lia.
Qed.

Lemma tally_app (level : ImpactLevel) (l1 l2 : list ImpactItem) :
  tally level (l1 ++ l2) = tally level l1 + tally level l2.
Proof. unfold tally. rewrite filter_app, length_app. lia. Qed.

Lemma tally_total (l : list ImpactItem) :
  tally CRITICAL l + tally HIGH l + tally MEDIUM l + tally LOW l + tally NONE l
  = Z.of_nat (length l).
Proof.
  induction l as [|i l IH]; [reflexivity|].
  rewrite !tally_cons. simpl length.
  destruct (impact_level i); repeat case_decide; try congruence; lia.
Qed.

Lemma tally_nonneg (level : ImpactLevel) (l : list ImpactItem) :
  0 <= tally level l.
Proof. unfold tally. lia. Qed.

Lemma summary_lookup (r : ImpactReport) :
  let s := summary (generate_summary r) in
  s !! "total_items" = Some (Z.of_nat (length (items r)))
  /\ s !! "critical" = Some (tally CRITICAL (items r))
  /\ s !! "high" = Some (tally HIGH (items r))
  /\ s !! "medium" = Some (tally MEDIUM (items r))
  /\ s !! "low" = Some (tally LOW (items r)).
Proof.
  simpl. rewrite <- !count_level_tally. repeat split; reflexivity.
Qed.

(** C7: the exit status is 1 exactly when a minimum severity was supplied and
    the overall severity of the report is at or above it under the fixed
    rank; with no minimum, or with the overall severity below it, the status
    is 0 whatever the report holds. *)
Theorem exit_status_gate (fail_on : option FailOn) (report : ImpactReport) :
  (main_exit fail_on report = 1 <->
     exists f, fail_on = Some f
               /\ (rank (fail_on_level f) <= rank (overall_impact report))%nat)
  /\ (main_exit fail_on report <> 1 -> main_exit fail_on report = 0)
  /\ (fail_on = None -> main_exit fail_on report = 0)
  /\ (forall f, fail_on = Some f ->
        (rank (overall_impact report) < rank (fail_on_level f))%nat ->
        main_exit fail_on report = 0).
Proof.
  unfold main_exit. destruct fail_on as [f|].
  - rewrite fail_on_threshold, ImpactLevel_ge_rank.
    destruct (rank (fail_on_level f) <=? rank (overall_impact report))%nat eqn:E.
    + apply Nat.leb_le in E. repeat split; try done.
      * intros _. by exists f.
      * intros f' [= <-] Hlt. lia.
    + apply Nat.leb_gt in E. repeat split; try done.
      intros (f' & [= <-] & Hle). lia.
  - repeat split; try done. intros (f & Hf & _). discriminate.
Qed.

(** ** The diff scanner *)

Lemma startswith_cons (a b : ascii) (s p : string) :
  startswith (String b s) (String a p) = (Ascii.eqb a b && startswith s p)%bool.
Proof. reflexivity. Qed.

Lemma strip_prefix_startswith (p s r : string) :
  strip_prefix p s = Some r -> startswith s p = true.
Proof.
  revert s. induction p as [|a p IH]; intros s Hs; [reflexivity|].
  destruct s as [|b s]; [discriminate|].
  rewrite startswith_cons. cbn [strip_prefix] in Hs.
  destruct (Ascii.eqb a b); [|discriminate]. by apply IH.
Qed.

Lemma startswith_first (s p q : string) (a b : ascii) :
  a <> b -> startswith s (String a p) = true -> startswith s (String b q) = false.
Proof.
  intros Hab Hs. destruct s as [|c s]; [reflexivity|].
  rewrite startswith_cons in *. apply andb_true_iff in Hs as [Hc _].
  apply Ascii.eqb_eq in Hc as <-.
  apply Ascii.eqb_neq in Hab. rewrite Ascii.eqb_sym in Hab. by rewrite Hab.
Qed.

Lemma startswith_longer (s p : string) (a b : ascii) :
  startswith s (String a "") = false -> startswith s (String a p) = false.
Proof.
  destruct s as [|c s]; [reflexivity|]. rewrite !startswith_cons.
  destruct (Ascii.eqb a c); [discriminate|reflexivity].
Qed.

Lemma hunk_match_startswith (diff_line : string) (c : Z) :
  hunk_match diff_line = Some c -> startswith diff_line "@@ -" = true.
Proof.
  unfold hunk_match. intros Hm.
  destruct (strip_prefix "@@ -" diff_line) as [r|] eqn:E; [|discriminate].
  by apply strip_prefix_startswith in E.
Qed.

Lemma header_not_added (diff_line : string) (c : Z) :
  hunk_match diff_line = Some c -> is_added diff_line = false.
Proof.
  intros Hm. apply hunk_match_startswith in Hm. unfold is_added.
  by rewrite (startswith_first _ _ "" "@" "+" ltac:(done) Hm).
Qed.

Lemma scan_diff_pairs {A : Type} (emit : string -> Z -> list A)
    (n : Z) (ls : list string) :
  scan_diff emit n ls
  = flat_map (fun p => emit p.1 p.2) (scan_diff pair_line n ls).
Proof.
  revert n. induction ls as [|l ls IH]; intros n; [reflexivity|].
  simpl. destruct (hunk_match l); [apply IH|].
  destruct (is_added l).
  - simpl. by rewrite <- IH.
  - destruct (_ || _)%bool; [apply IH|]. destruct (negb _); apply IH.
Qed.

Lemma scan_diff_app {A : Type} (emit : string -> Z -> list A)
    (n : Z) (l1 l2 : list string) :
  scan_diff emit n (l1 ++ l2)
  = scan_diff emit n l1 ++ scan_diff emit (cursor_after n l1) l2.
Proof.
  revert n. induction l1 as [|l l1 IH]; intros n; [reflexivity|].
  simpl. destruct (hunk_match l) eqn:Eh; [apply IH|].
  unfold advances, is_context, is_header. rewrite Eh.
  rewrite bool_decide_eq_false_2 by (intros [? ?]; discriminate).
  destruct (is_added l).
  - simpl. rewrite <- app_assoc. by rewrite IH.
  - simpl. destruct (startswith l "-") eqn:E1; simpl; [apply IH|].
    rewrite (startswith_longer l "--" "-" "-" E1).
    destruct (startswith l "\"); simpl; apply IH.
Qed.

Lemma scan_diff_pairs_length (n : Z) (ls : list string) :
  length (scan_diff pair_line n ls) = length (List.filter is_added ls).
Proof.
  revert n. induction ls as [|l ls IH]; intros n; [reflexivity|].
  simpl. destruct (hunk_match l) eqn:Eh.
  - rewrite (header_not_added _ _ Eh). apply IH.
  - destruct (is_added l); simpl; [by rewrite IH|].
    destruct (_ || _)%bool; [apply IH|]. destruct (negb _); apply IH.
Qed.

Lemma scan_diff_pairs_text (n : Z) (ls : list string) :
  (scan_diff pair_line n ls).*1 = drop1 <$> List.filter is_added ls.
Proof.
  revert n. induction ls as [|l ls IH]; intros n; [reflexivity|].
  simpl. destruct (hunk_match l) eqn:Eh.
  - rewrite (header_not_added _ _ Eh). apply IH.
  - destruct (is_added l); simpl; [by rewrite IH|].
    destruct (_ || _)%bool; [apply IH|]. destruct (negb _); apply IH.
Qed.

Lemma cursor_after_no_header (n : Z) (ls : list string) :
  Forall (fun l => hunk_match l = None) ls ->
  cursor_after n ls = n + Z.of_nat (length (List.filter advances ls)).
Proof.
  intros Hall. revert n. induction Hall as [|l ls Hl _ IH]; intros n; simpl.
  - lia.
  - rewrite Hl. destruct (advances l); rewrite IH; simpl length; lia.
Qed.

Lemma cursor_after_app (n : Z) (l1 l2 : list string) :
  cursor_after n (l1 ++ l2) = cursor_after (cursor_after n l1) l2.
Proof.
  revert n. induction l1 as [|l l1 IH]; intros n; [reflexivity|].
  simpl. destruct (hunk_match l); apply IH.
Qed.

(** C2: the diff line mapper gives one pair per added line (a line that starts
    with [+] and not with [+++]), in the order of the diff, with the text after
    the marker; and an added line that comes after a hunk header
    [@@ -a[,b] +c[,d] @@], with no other header in between, gets the number [c]
    plus the count of added and context lines between the header and it:
    removed lines do not count, and each header sets the cursor anew. *)
Theorem added_lines_numbering (diff_content : string) :
  let diff_lines := split_on newline diff_content in
  let emitted := added_lines diff_content in
  length emitted = length (List.filter is_added diff_lines)
  /\ emitted.*1 = drop1 <$> List.filter is_added diff_lines
  /\ forall before header c between line after,
       diff_lines = before ++ header :: between ++ line :: after ->
       hunk_match header = Some c ->
       Forall (fun l => hunk_match l = None) between ->
       is_added line = true ->
       emitted !! length (List.filter is_added (before ++ header :: between))
       = Some (drop1 line, c + Z.of_nat (length (List.filter advances between))).
Proof.
  intros diff_lines emitted. unfold emitted, added_lines.
  fold diff_lines. change (fun l n => [(l, n)]) with pair_line.
  split; [apply scan_diff_pairs_length|]. split; [apply scan_diff_pairs_text|].
  intros before header c between line after Hsplit Hh Hbetween Hadded.
  rewrite Hsplit.
  replace (before ++ header :: between ++ line :: after)
    with ((before ++ header :: between) ++ line :: after)
    by (by rewrite <- app_assoc).
  rewrite scan_diff_app.
  rewrite <- (scan_diff_pairs_length 0 (before ++ header :: between)).
  rewrite lookup_app_r by lia. rewrite Nat.sub_diag.
  rewrite cursor_after_app. simpl cursor_after. rewrite Hh.
  rewrite cursor_after_no_header by done.
  simpl. rewrite Hadded.
  destruct (hunk_match line) eqn:El.
  - apply header_not_added in El. congruence.
  - reflexivity.
Qed.
(** ** Outcomes *)

Lemma collect_app {A : Type} (l1 l2 : list (result (list A))) :
  collect (l1 ++ l2)
  = (a ← collect l1; b ← collect l2; Ok (a ++ b)).
Proof.
  induction l1 as [|[l|e] l1 IH]; simpl.
  - by destruct (collect l2).
  - rewrite IH. destruct (collect l1) as [a|]; [|reflexivity]. simpl.
    destruct (collect l2) as [b|]; [|reflexivity]. simpl.
    by rewrite app_assoc.
  - reflexivity.
Qed.

Lemma collect_Ok_elem {A : Type} (outcomes : list (result (list A)))
    (r : list A) (x : A) :
  collect outcomes = Ok r ->
  x ∈ r <-> exists l, Ok l ∈ outcomes /\ x ∈ l.
Proof.
  revert r. induction outcomes as [|[l|e] outcomes IH]; intros r Hr; simpl in Hr.
  - injection Hr as <-. split; [by intros ?%not_elem_of_nil|].
    by intros (l & ?%not_elem_of_nil & _).
  - destruct (collect outcomes) as [later|]; [|discriminate].
    injection Hr as <-. rewrite elem_of_app, (IH later eq_refl). split.
    + intros [Hx|(l' & Hl' & Hx)].
      * exists l. split; [apply list_elem_of_here|done].
      * exists l'. split; [by apply list_elem_of_further|done].
    + intros (l' & Hl' & Hx). apply elem_of_cons in Hl' as [[= ->]|Hl'].
      * by left.
      * right. by exists l'.
  - discriminate.
Qed.

Lemma collect_Ok_nonempty {A : Type} (outcomes : list (result (list A)))
    (r : list A) :
  collect outcomes = Ok r ->
  r <> [] <-> exists l, Ok l ∈ outcomes /\ l <> [].
Proof.
  intros Hr. split.
  - intros Hne. destruct r as [|x r]; [done|].
    destruct (proj1 (collect_Ok_elem _ _ x Hr)) as (l & Hl & Hx);
      [apply list_elem_of_here|].
    exists l. split; [done|]. intros ->. by apply not_elem_of_nil in Hx.
  - intros (l & Hl & Hne) ->. destruct l as [|x l]; [done|].
    eapply not_elem_of_nil, (collect_Ok_elem _ _ x Hr).
    exists (x :: l). split; [done|apply list_elem_of_here].
Qed.

Lemma collect_Ok_all {A : Type} (outcomes : list (result (list A)))
    (r : list A) (o : result (list A)) :
  collect outcomes = Ok r -> o ∈ outcomes -> exists l, o = Ok l.
Proof.
  revert r. induction outcomes as [|[l|e] outcomes IH]; intros r Hr Ho;
    simpl in Hr.
  - by apply not_elem_of_nil in Ho.
  - destruct (collect outcomes) as [later|]; [|discriminate].
    apply elem_of_cons in Ho as [->|Ho]; [by eexists|by eapply IH].
  - discriminate.
Qed.

Lemma collect_total {A : Type} (outcomes : list (result (list A))) :
  (forall o, o ∈ outcomes -> exists l, o = Ok l) ->
  exists r, collect outcomes = Ok r.
Proof.
  induction outcomes as [|o outcomes IH]; intros Hall; [by eexists|].
  destruct (Hall o) as [l ->]; [apply list_elem_of_here|].
  destruct IH as [r Hr].
  { intros o' Ho'. apply Hall. by apply list_elem_of_further. }
  simpl. rewrite Hr. by eexists.
Qed.

Lemma collect_Raise {A : Type} (outcomes : list (result (list A)))
    (e : exception) :
  collect outcomes = Raise e -> Raise e ∈ outcomes.
Proof.
  induction outcomes as [|[l|e'] outcomes IH]; simpl; intros Hr.
  - discriminate.
  - destruct (collect outcomes) as [later|]; [discriminate|].
    injection Hr as ->. apply list_elem_of_further. by apply IH.
  - injection Hr as ->. apply list_elem_of_here.
Qed.

Lemma flat_map_singleton {A B : Type} (f : A -> B) (l : list A) :
  flat_map (fun x => [f x]) l = f <$> l.
Proof. induction l as [|a l IH]; [reflexivity|]. simpl. by rewrite IH. Qed.

(** ** The rule matcher *)


Lemma check_path_patterns_true (file_path : string) (patterns : list string) :
  check_path_patterns file_path patterns = true
  <-> exists p, p ∈ patterns /\ Fnmatch.fnmatch file_path p = true.
Proof.
  unfold check_path_patterns. rewrite existsb_exists.
  split; intros (p & Hp & Hm); exists p; split; try done;
    by apply list_elem_of_In.
Qed.

(** The added lines the scan visits are the lines of the diff that start
    with one [+]. *)
Lemma scan_diff_pairs_texts (n : Z) (ls : list string) (text : string) :
  text ∈ (scan_diff pair_line n ls).*1
  <-> String "+" text ∈ ls /\ startswith (String "+" text) "+++" = false.
Proof.
  revert n. induction ls as [|l ls IH]; intros n.
  - simpl. split; [by intros ?%not_elem_of_nil|].
    by intros [?%not_elem_of_nil _].
  - assert (Hadded : is_added (String "+" text)
                     = negb (startswith (String "+" text) "+++")) by reflexivity.
    assert (Hskip : forall m, is_added l = false ->
              (text ∈ (scan_diff pair_line m ls).*1
               <-> String "+" text ∈ l :: ls
                   /\ startswith (String "+" text) "+++" = false)).
    { intros m Hl. rewrite IH, elem_of_cons. split; [intros [? ?]; by auto|].
      intros [[<-|Hin] Hs]; [|done].
      rewrite Hadded, Hs in Hl. discriminate. }
    clear Hadded. simpl. destruct (hunk_match l) as [c|] eqn:Eh.
    { apply Hskip. by eapply header_not_added. }
    destruct (is_added l) eqn:Ea.
    + simpl. rewrite elem_of_cons, IH, elem_of_cons. split.
      * intros [->|[Hin Hs]]; [|by auto].
        unfold is_added in Ea. apply andb_true_iff in Ea as [E1 E2].
        destruct l as [|a l]; [discriminate|].
        rewrite startswith_cons in E1. apply andb_true_iff in E1 as [E1 _].
        apply Ascii.eqb_eq in E1 as <-. simpl. split; [by left|].
        by apply negb_true_iff in E2.
      * intros [[<-|Hin] Hs]; [by left|by right].
    + destruct (startswith l "-" || startswith l "---")%bool;
        [by apply Hskip|].
      destruct (negb (startswith l "\")); by apply Hskip.
Qed.

Lemma added_lines_texts (diff_content text : string) :
  text ∈ (added_lines diff_content).*1 <-> added_text diff_content text.
Proof. apply scan_diff_pairs_texts. Qed.

Section RuleFacts.

Context {Match : Type} `{Countable Match}.
Variable findall : string -> string -> re_flags -> option (list Match).
Variable render : Match -> string.

Lemma line_matches_Ok_elem (patterns : list string) (text : string) (n : Z)
    (ms : list found) (m : found) :
  line_matches findall patterns text n = Ok ms ->
  m ∈ ms
  <-> line_number m = n
      /\ exists p found_texts,
           p ∈ patterns /\ findall p text IGNORECASE = Some found_texts
           /\ pattern m ∈ found_texts.
Proof.
  revert ms. induction patterns as [|p patterns IH]; intros ms Hms;
    simpl in Hms.
  - injection Hms as <-. split; [by intros ?%not_elem_of_nil|].
    by intros (_ & ? & ? & ?%not_elem_of_nil & _).
  - destruct (findall p text IGNORECASE) as [found_texts|] eqn:Ef;
      [|discriminate].
    destruct (line_matches findall patterns text n) as [later|];
      [|discriminate].
    injection Hms as <-. rewrite elem_of_app, (IH later eq_refl). split.
    + intros [Hm|(Hn & p' & fs & Hp' & Hf & Hm)].
      * apply list_elem_of_In, in_map_iff in Hm as (x & <- & Hx).
        split; [reflexivity|]. exists p, found_texts.
        split; [apply list_elem_of_here|]. split; [done|].
        by apply list_elem_of_In.
      * split; [done|]. exists p', fs.
        split; [by apply list_elem_of_further|done].
    + intros (Hn & p' & fs & Hp' & Hf & Hm).
      apply elem_of_cons in Hp' as [->|Hp'].
      * left. rewrite Ef in Hf. injection Hf as <-.
        apply list_elem_of_In, in_map_iff. exists (pattern m).
        split; [|by apply list_elem_of_In]. destruct m. simpl in *. by subst.
      * right. split; [done|]. by exists p', fs.
Qed.

Lemma line_matches_Ok_nonempty (patterns : list string) (text : string)
    (n : Z) (ms : list found) :
  line_matches findall patterns text n = Ok ms ->
  ms <> []
  <-> exists p found_texts,
        p ∈ patterns /\ findall p text IGNORECASE = Some found_texts
        /\ found_texts <> [].
Proof.
  intros Hms. split.
  - intros Hne. destruct ms as [|m ms]; [done|].
    destruct (proj1 (line_matches_Ok_elem _ _ _ _ m Hms))
      as (_ & p & fs & Hp & Hf & Hm); [apply list_elem_of_here|].
    exists p, fs. split; [done|]. split; [done|].
    intros ->. by apply not_elem_of_nil in Hm.
  - intros (p & fs & Hp & Hf & Hne) ->. destruct fs as [|x fs]; [done|].
    eapply not_elem_of_nil,
      (line_matches_Ok_elem _ _ _ _ {| pattern := x; line_number := n |} Hms).
    split; [reflexivity|]. exists p, (x :: fs).
    split; [done|]. split; [done|]. apply list_elem_of_here.
Qed.

Lemma line_matches_total (patterns : list string) (text : string) (n : Z) :
  (forall p, p ∈ patterns -> is_Some (findall p text IGNORECASE)) ->
  exists ms, line_matches findall patterns text n = Ok ms.
Proof.
  induction patterns as [|p patterns IH]; intros Hall; [by eexists|].
  destruct (Hall p) as [fs Hf]; [apply list_elem_of_here|].
  destruct IH as [later Hlater].
  { intros p' Hp'. apply Hall. by apply list_elem_of_further. }
  simpl. rewrite Hf, Hlater. by eexists.
Qed.

Lemma line_matches_Ok_accepted (patterns : list string) (text : string)
    (n : Z) (ms : list found) (p : string) :
  line_matches findall patterns text n = Ok ms ->
  p ∈ patterns -> is_Some (findall p text IGNORECASE).
Proof.
  revert ms. induction patterns as [|q patterns IH]; intros ms Hms Hp.
  - by apply not_elem_of_nil in Hp.
  - simpl in Hms.
    destruct (findall q text IGNORECASE) as [found_texts|] eqn:Ef;
      [|discriminate].
    destruct (line_matches findall patterns text n) as [later|];
      [|discriminate].
    apply elem_of_cons in Hp as [->|Hp]; [by eexists|by eapply IH].
Qed.

Lemma line_matches_Raise (patterns : list string) (text : string) (n : Z)
    (e : exception) :
  line_matches findall patterns text n = Raise e ->
  e = FindallRaised
  /\ exists p, p ∈ patterns /\ findall p text IGNORECASE = None.
Proof.
  induction patterns as [|p patterns IH]; simpl; intros Hr; [discriminate|].
  destruct (findall p text IGNORECASE) as [found_texts|] eqn:Ef.
  - destruct (line_matches findall patterns text n) as [later|];
      [discriminate|].
    injection Hr as ->. destruct IH as (-> & p' & Hp' & Hf'); [done|].
    split; [done|]. exists p'. split; [by apply list_elem_of_further|done].
  - injection Hr as <-. split; [done|]. exists p.
    split; [apply list_elem_of_here|done].
Qed.

Lemma check_content_patterns_added (diff_content : string)
    (patterns : list string) :
  check_content_patterns findall diff_content patterns
  = collect ((fun line => line_matches findall patterns line.1 line.2)
               <$> added_lines diff_content).
Proof.
  unfold check_content_patterns, added_lines. f_equal.
  change (scan_diff (fun line_content current_line => [(line_content, current_line)]))
    with (scan_diff pair_line).
  rewrite scan_diff_pairs. apply flat_map_singleton.
Qed.

Lemma check_content_patterns_nonempty (diff_content : string)
    (patterns : list string) (matches : list found) :
  check_content_patterns findall diff_content patterns = Ok matches ->
  matches <> []
  <-> exists p text found_texts,
        p ∈ patterns /\ added_text diff_content text
        /\ findall p text IGNORECASE = Some found_texts
        /\ found_texts <> [].
Proof.
  rewrite check_content_patterns_added. intros Hm.
  rewrite (collect_Ok_nonempty _ _ Hm). split.
  - intros (ms & Hms & Hne).
    apply list_elem_of_fmap in Hms as ([text n] & Hms & Hline).
    symmetry in Hms. simpl in Hms.
    apply (line_matches_Ok_nonempty _ _ _ _ Hms) in Hne
      as (p & fs & Hp & Hf & Hne).
    exists p, text, fs. split; [done|]. split; [|done].
    apply added_lines_texts, list_elem_of_fmap. by exists (text, n).
  - intros (p & text & fs & Hp & Ht & Hf & Hne).
    apply added_lines_texts, list_elem_of_fmap in Ht as ([t n] & -> & Hline).
    simpl in Hf.
    destruct (collect_Ok_all _ _
                (line_matches findall patterns t n) Hm) as [ms Hms].
    { apply list_elem_of_fmap. by exists (t, n). }
    exists ms. split.
    + rewrite <- Hms. apply list_elem_of_fmap. by exists (t, n).
    + apply (line_matches_Ok_nonempty _ _ _ _ Hms). by exists p, fs.
Qed.

Lemma check_content_patterns_total (diff_content : string)
    (patterns : list string) :
  (forall p text, p ∈ patterns -> added_text diff_content text ->
                  is_Some (findall p text IGNORECASE)) ->
  exists matches,
    check_content_patterns findall diff_content patterns = Ok matches.
Proof.
  intros Hall. rewrite check_content_patterns_added. apply collect_total.
  intros o Ho. apply list_elem_of_fmap in Ho as ([t n] & -> & Hline).
  apply line_matches_total. intros p Hp. apply Hall; [done|].
  apply added_lines_texts, list_elem_of_fmap. by exists (t, n).
Qed.

Lemma check_content_patterns_Ok_accepted (diff_content : string)
    (patterns : list string) (matches : list found) (p text : string) :
  check_content_patterns findall diff_content patterns = Ok matches ->
  p ∈ patterns -> added_text diff_content text ->
  is_Some (findall p text IGNORECASE).
Proof.
  rewrite check_content_patterns_added. intros Hm Hp Ht.
  apply added_lines_texts, list_elem_of_fmap in Ht as ([t n] & -> & Hline).
  destruct (collect_Ok_all _ _
              (line_matches findall patterns t n) Hm) as [ms Hms].
  { apply list_elem_of_fmap. by exists (t, n). }
  by eapply line_matches_Ok_accepted.
Qed.

Lemma check_content_patterns_Ok_elem (diff_content : string)
    (patterns : list string) (matches : list found) (m : found) :
  check_content_patterns findall diff_content patterns = Ok matches ->
  m ∈ matches
  <-> exists line p found_texts,
        line ∈ added_lines diff_content /\ p ∈ patterns
        /\ findall p line.1 IGNORECASE = Some found_texts
        /\ pattern m ∈ found_texts /\ line_number m = line.2.
Proof.
  rewrite check_content_patterns_added. intros Hm.
  rewrite (collect_Ok_elem _ _ m Hm). split.
  - intros (ms & Hms & Hin).
    apply list_elem_of_fmap in Hms as (line & Hms & Hline).
    symmetry in Hms.
    apply (line_matches_Ok_elem _ _ _ _ m Hms) in Hin
      as (Hn & p & fs & Hp & Hf & Hin).
    by exists line, p, fs.
  - intros (line & p & fs & Hline & Hp & Hf & Hin & Hn).
    destruct (collect_Ok_all _ _
                (line_matches findall patterns line.1 line.2) Hm)
      as [ms Hms].
    { apply list_elem_of_fmap. by exists line. }
    exists ms. split.
    + rewrite <- Hms. apply list_elem_of_fmap. by exists line.
    + apply (line_matches_Ok_elem _ _ _ _ m Hms). split; [done|].
      by exists p, fs.
Qed.

Lemma check_content_patterns_Raise (diff_content : string)
    (patterns : list string) (e : exception) :
  check_content_patterns findall diff_content patterns = Raise e ->
  e = FindallRaised
  /\ exists p text, p ∈ patterns /\ added_text diff_content text
                    /\ findall p text IGNORECASE = None.
Proof.
  rewrite check_content_patterns_added. intros Hr.
  apply collect_Raise, list_elem_of_fmap in Hr as ([t n] & Hr & Hline).
  symmetry in Hr. apply line_matches_Raise in Hr as (-> & p & Hp & Hf).
  split; [done|]. exists p, t. split; [done|]. split; [|done].
  apply added_lines_texts, list_elem_of_fmap. by exists (t, n).
Qed.

Lemma rule_details_fired (file_path diff_content : string)
    (cfg : PatternConfig) (fired : option (list string)) :
  rule_details findall render file_path diff_content cfg = Ok fired ->
  is_Some fired
  <-> path_passes file_path cfg /\ content_passes findall diff_content cfg.
Proof.
  unfold rule_details, path_passes, content_passes.
  rewrite <- check_path_patterns_true.
  destruct (decide (paths cfg = [])) as [Hp|Hp];
    [rewrite (bool_decide_eq_true_2 _ Hp)|rewrite (bool_decide_eq_false_2 _ Hp)];
    cbn [negb andb].
  - destruct (decide (content_patterns cfg = [])) as [Hc|Hc];
      [rewrite (bool_decide_eq_true_2 _ Hc)|rewrite (bool_decide_eq_false_2 _ Hc)].
    + intros [= <-]. split; [intros _; split; by left|by eexists].
    + destruct (check_content_patterns _ _ _) as [matches|] eqn:Em;
        [|discriminate].
      cbn [mbind result_bind].
      rewrite <- (check_content_patterns_nonempty _ _ _ Em).
      case_bool_decide as Hm; intros [= <-].
      * split; [by intros [? ?]|]. intros [_ [?|?]]; done.
      * split; [intros _; split; [by left|by right]|by eexists].
  - destruct (check_path_patterns file_path (paths cfg)) eqn:Ep; cbn [negb].
    + destruct (decide (content_patterns cfg = [])) as [Hc|Hc];
        [rewrite (bool_decide_eq_true_2 _ Hc)|rewrite (bool_decide_eq_false_2 _ Hc)].
      * intros [= <-]. split; [intros _; split; [by right|by left]|by eexists].
      * destruct (check_content_patterns _ _ _) as [matches|] eqn:Em;
          [|discriminate].
        cbn [mbind result_bind].
        rewrite <- (check_content_patterns_nonempty _ _ _ Em).
        case_bool_decide as Hm; intros [= <-].
        -- split; [by intros [? ?]|]. intros [_ [?|?]]; done.
        -- split; [intros _; split; by right|by eexists].
    + intros [= <-]. split; [by intros [? ?]|]. intros [[?|?] _]; done.
Qed.

Lemma rule_details_total (file_path diff_content : string)
    (cfg : PatternConfig) :
  (forall p text, p ∈ content_patterns cfg -> added_text diff_content text ->
                  is_Some (findall p text IGNORECASE)) ->
  exists fired,
    rule_details findall render file_path diff_content cfg = Ok fired.
Proof.
  intros Hall. unfold rule_details.
  destruct (_ && _)%bool; [by eexists|].
  case_bool_decide; [by eexists|].
  destruct (check_content_patterns_total diff_content _ Hall) as [ms ->].
  cbn [mbind result_bind]. case_bool_decide; by eexists.
Qed.



(** The loop of [analyze_file] adds what the rules add, in their order, and
    raises what the first of them raises. *)
Lemma analyze_rules_evidences (file_path diff_content : string)
    (rules : list (string * PatternConfig)) (report : ImpactReport) :
  analyze_rules findall render file_path diff_content rules report
  = add_items report
      <$> rules_evidences findall render file_path diff_content rules.
Proof.
  unfold rules_evidences. revert report.
  induction rules as [|[name cfg] rules IH]; intros report; [reflexivity|].
  cbn [analyze_rules fmap list_fmap collect]. unfold rule_evidence at 1.
  cbn [fst snd].
  destruct (rule_details findall render file_path diff_content cfg)
    as [[details|]|e]; cbn [mbind result_bind].
  - destruct (ImpactLevel_of_value (cfg_impact_level cfg)) as [level|];
      [|reflexivity].
    rewrite IH.
    destruct (collect _) as [later|]; reflexivity.
  - rewrite IH. destruct (collect _) as [later|]; reflexivity.
  - reflexivity.
Qed.

Lemma rule_evidence_elem (file_path diff_content : string)
    (rule : string * PatternConfig) (evidences : list ImpactItem)
    (e : ImpactItem) :
  rule_evidence findall render file_path diff_content rule = Ok evidences ->
  e ∈ evidences ->
  evidences = [e]
  /\ category e = rule.1 /\ ImpactCheck.file_path e = file_path
  /\ rule_details findall render file_path diff_content rule.2
     = Ok (Some (details e))
  /\ ImpactLevel_of_value (cfg_impact_level rule.2) = Some (impact_level e)
  /\ description e = cfg_description rule.2
  /\ recommendation e = cfg_recommendation rule.2.
Proof.
  unfold rule_evidence. intros He Hin.
  destruct (rule_details _ _ _ _ _) as [[d|]|]; cbn [mbind result_bind] in He.
  - destruct (ImpactLevel_of_value _) as [l|]; [|discriminate].
    injection He as <-. apply list_elem_of_singleton in Hin as ->. done.
  - injection He as <-. by apply not_elem_of_nil in Hin.
  - discriminate.
Qed.





End RuleFacts.

(** ** The detail entries *)

Section FirstSeen.

Context {K : Type} `{Countable K}.

Lemma first_seen_elem_of (seen : gset K) (l : list K) (x : K) :
  x ∈ first_seen seen l <-> (x ∉ seen) /\ (x ∈ l).
Proof.
  revert seen. induction l as [|y l IHl]; intros seen; simpl.
  - split; [intros Hx|intros [_ Hx]]; by apply not_elem_of_nil in Hx.
  - destruct (decide (y ∈ seen)) as [Hy|Hy].
    + rewrite IHl, elem_of_cons. split.
      * intros [Hx Hl]. split; [done|by right].
      * intros [Hx [->|Hl]]; done.
    + rewrite !elem_of_cons, IHl, elem_of_union, elem_of_singleton. split.
      * intros [->|[Hx Hl]]; [by split; [|left]|].
        split; [|by right]. intros Hs. apply Hx. by right.
      * intros [Hx [->|Hl]]; [by left|].
        destruct (decide (x = y)) as [->|Hne]; [by left|].
        right. split; [|done]. by intros [?|?].
Qed.

Lemma first_seen_NoDup (seen : gset K) (l : list K) :
  NoDup (first_seen seen l).
Proof.
  revert seen. induction l as [|y l IHl]; intros seen; simpl.
  - constructor.
  - destruct (decide (y ∈ seen)); [apply IHl|].
    apply NoDup_cons. split; [|apply IHl].
    rewrite first_seen_elem_of, elem_of_union, elem_of_singleton.
    intros [Hs _]. apply Hs. by left.
Qed.

Lemma first_seen_sublist (seen : gset K) (l : list K) :
  first_seen seen l `sublist_of` l.
Proof.
  revert seen. induction l as [|y l IH]; intros seen; simpl.
  - constructor.
  - destruct (decide (y ∈ seen)).
    + apply sublist_cons. apply IH.
    + apply sublist_skip. apply IH.
Qed.

Lemma first_seen_size (l : list K) :
  length (first_seen ∅ l) = size (list_to_set l : gset K).
Proof.
  rewrite <- (size_list_to_set (C := gset K) (first_seen ∅ l))
    by apply first_seen_NoDup.
  f_equal. apply set_eq. intros x.
  rewrite !elem_of_list_to_set, first_seen_elem_of.
  split; [by intros [_ ?]|]. intros Hx. split; [|done].
  apply not_elem_of_empty.
Qed.

End FirstSeen.

Section DetailFacts.

Context {Match : Type} `{Countable Match}.
Variable findall : string -> string -> re_flags -> option (list Match).
Variable render : Match -> string.

Lemma detail_text_key (file_path : string) (m : found) :
  detail_text render file_path m = key_text render file_path (key_of m).
Proof. by destruct m. Qed.

Lemma collect_details_first_seen (file_path : string) (matches : list found)
    (seen : gset (Match * Z)) (kept : list (Match * Z)) :
  (length kept < 5)%nat ->
  collect_details render file_path matches seen
    (key_text render file_path <$> kept)
  = key_text render file_path
      <$> take 5 (kept ++ first_seen seen (key_of <$> matches)).
Proof.
  revert seen kept. induction matches as [|m ms IH]; intros seen kept Hlen.
  - simpl. rewrite app_nil_r, take_ge by lia. reflexivity.
  - cbn [collect_details fmap list_fmap first_seen].
    change (pattern m, line_number m) with (key_of m).
    change (list_fmap _ _ key_of ms) with (key_of <$> ms).
    destruct (decide (key_of m ∈ seen)) as [Hin|Hnotin].
    + rewrite length_fmap.
      destruct (5 <=? length kept)%nat eqn:E; [apply Nat.leb_le in E; lia|].
      by apply IH.
    + rewrite detail_text_key.
      assert (Hsnoc : (key_text render file_path <$> kept)
                        ++ [key_text render file_path (key_of m)]
                      = key_text render file_path <$> (kept ++ [key_of m]))
        by (by rewrite fmap_app).
      rewrite Hsnoc, length_fmap.
      set (later := first_seen ({[key_of m]} ∪ seen) (key_of <$> ms)).
      replace (kept ++ key_of m :: later)
        with ((kept ++ [key_of m]) ++ later) by (by rewrite <- app_assoc).
      assert (Hl : length (kept ++ [key_of m]) = S (length kept))
        by (rewrite length_app; simpl; lia).
      destruct (5 <=? length (kept ++ [key_of m]))%nat eqn:E.
      * apply Nat.leb_le in E.
        rewrite take_app_le by lia. rewrite take_ge by lia. reflexivity.
      * apply Nat.leb_gt in E. apply IH. lia.
Qed.

(** C5: for a rule with content patterns that fires, the detail entries are
    those of the distinct (matched text, line number) pairs in the order they
    are first met, cut after the fifth: a pair met twice has one entry, there
    are never more than five entries, and more than five distinct pairs give
    exactly five. *)
Theorem details_deduplicated (file_path diff_content : string)
    (cfg : PatternConfig) (details : list string) :
  content_patterns cfg <> [] ->
  rule_details findall render file_path diff_content cfg = Ok (Some details) ->
  exists matches,
    check_content_patterns findall diff_content (content_patterns cfg)
    = Ok matches
    /\ let keys := key_of <$> matches in
       let distinct := first_seen ∅ keys in
       details = key_text render file_path <$> take 5 distinct
       /\ NoDup distinct
       /\ (forall k, k ∈ distinct <-> k ∈ keys)
       /\ distinct `sublist_of` keys
       /\ length distinct = size (list_to_set keys : gset (Match * Z))
       /\ (length details <= 5)%nat
       /\ length details = Nat.min 5 (length distinct)
       /\ ((5 < length distinct)%nat -> length details = 5%nat).
Proof.
  intros Hc Hd. unfold rule_details in Hd.
  destruct (_ && _)%bool; [discriminate|].
  rewrite (bool_decide_eq_false_2 _ Hc) in Hd.
  destruct (check_content_patterns findall diff_content (content_patterns cfg))
    as [matches|]; [|discriminate].
  cbn [mbind result_bind] in Hd.
  exists matches. split; [reflexivity|]. intros keys distinct.
  assert (Hdetails : details = key_text render file_path <$> take 5 distinct).
  { destruct (bool_decide _); [discriminate|].
    injection Hd as <-.
    apply (collect_details_first_seen file_path _ ∅ []). simpl. lia. }
  assert (Hlen : length details = Nat.min 5 (length distinct)).
  { rewrite Hdetails, length_fmap, length_take. reflexivity. }
  split; [exact Hdetails|]. split; [apply first_seen_NoDup|].
  split; [|split; [apply first_seen_sublist|]].
  - intros k. unfold distinct. rewrite first_seen_elem_of.
    split; [by intros [_ ?]|]. intros Hk. split; [|done].
    apply not_elem_of_empty.
  - split; [apply first_seen_size|]. split; [lia|]. split; [exact Hlen|lia].
Qed.

End DetailFacts.

(** ** The analysis of the changed files *)

Lemma skipped_prefix (file_path : string) :
  startswith file_path ".github/" = true -> skipped file_path = true.
Proof. unfold skipped. by intros ->. Qed.

Section AnalyzeFacts.

Context {Match : Type} `{Countable Match}.
Variable findall : string -> string -> re_flags -> option (list Match).
Variable render : Match -> string.
Variable git_diff_names : string -> string -> completed.
Variable git_diff_file : string -> string -> string -> completed.
Variable config_patterns : list (string * PatternConfig).

#[local] Abbreviation analyze_rules := (analyze_rules findall render).
#[local] Abbreviation analyze_file :=
  (analyze_file findall render git_diff_file config_patterns).
#[local] Abbreviation analyze_files :=
  (analyze_files findall render git_diff_file config_patterns).
#[local] Abbreviation get_changed_files := (get_changed_files git_diff_names).
#[local] Abbreviation analyze :=
  (analyze findall render git_diff_names git_diff_file config_patterns).

Lemma analyze_rules_changed_files (file_path diff_content : string)
    (rules : list (string * PatternConfig)) (r : ImpactReport)
    (files : list string) :
  analyze_rules file_path diff_content rules (set_changed_files r files)
  = (fun r' => set_changed_files r' files)
      <$> analyze_rules file_path diff_content rules r.
Proof.
  revert r. induction rules as [|[name cfg] rules IH]; intros r;
    [reflexivity|].
  cbn [ImpactCheck.analyze_rules].
  destruct (rule_details _ _ _ _ _) as [[details|]|e];
    cbn [mbind result_bind]; [|apply IH|reflexivity].
  destruct (ImpactLevel_of_value _); [|reflexivity].
  apply (IH (add_item r _)).
Qed.

Lemma analyze_files_changed_files (fs : list string) (base_ref head_ref : string)
    (r : ImpactReport) (files : list string) :
  analyze_files fs base_ref head_ref (set_changed_files r files)
  = (fun r' => set_changed_files r' files)
      <$> analyze_files fs base_ref head_ref r.
Proof.
  revert r. induction fs as [|f fs IH]; intros r; [reflexivity|].
  cbn [ImpactCheck.analyze_files].
  destruct (skipped f); [apply IH|].
  unfold ImpactCheck.analyze_file.
  destruct (get_file_diff git_diff_file f base_ref head_ref) as [diff|];
    [|reflexivity].
  cbn [mbind result_bind]. rewrite analyze_rules_changed_files.
  destruct (analyze_rules _ _ _ r); [|reflexivity].
  cbn [fmap result_fmap mbind result_bind]. apply IH.
Qed.

Lemma analyze_files_app (l1 l2 : list string) (base_ref head_ref : string)
    (r : ImpactReport) :
  analyze_files (l1 ++ l2) base_ref head_ref r
  = analyze_files l1 base_ref head_ref r
      ≫= analyze_files l2 base_ref head_ref.
Proof.
  revert r. induction l1 as [|f l1 IH]; intros r; [reflexivity|].
  cbn [app ImpactCheck.analyze_files].
  destruct (skipped f); [apply IH|].
  destruct (analyze_file f base_ref head_ref r); [|reflexivity].
  cbn [mbind result_bind]. apply IH.
Qed.

Lemma analyze_files_skip (before after : list string) (f : string)
    (base_ref head_ref : string) (r : ImpactReport) :
  skipped f = true ->
  analyze_files (before ++ f :: after) base_ref head_ref r
  = analyze_files (before ++ after) base_ref head_ref r.
Proof.
  intros Hf. rewrite !analyze_files_app.
  cbn [ImpactCheck.analyze_files]. by rewrite Hf.
Qed.

Lemma analyze_rules_paths (file_path diff_content : string)
    (rules : list (string * PatternConfig)) (r r' : ImpactReport) :
  analyze_rules file_path diff_content rules r = Ok r' ->
  forall e, e ∈ items r' ->
            e ∈ items r \/ ImpactCheck.file_path e = file_path.
Proof.
  revert r. induction rules as [|[name cfg] rules IH]; intros r Hr e He.
  - injection Hr as <-. by left.
  - cbn [ImpactCheck.analyze_rules] in Hr.
    destruct (rule_details _ _ _ _ _) as [[details|]|e'];
      cbn [mbind result_bind] in Hr; [|by eapply IH|discriminate].
    destruct (ImpactLevel_of_value _); [|discriminate].
    destruct (IH _ Hr e He) as [Hin|Hpath]; [|by right].
    simpl in Hin. apply elem_of_app in Hin as [Hin|Hin]; [by left|].
    apply list_elem_of_singleton in Hin as ->. by right.
Qed.

Lemma analyze_files_paths (fs : list string) (base_ref head_ref : string)
    (r r' : ImpactReport) :
  analyze_files fs base_ref head_ref r = Ok r' ->
  forall e, e ∈ items r' ->
            e ∈ items r \/ skipped (ImpactCheck.file_path e) = false.
Proof.
  revert r. induction fs as [|f fs IH]; intros r Hr e He.
  - injection Hr as <-. by left.
  - cbn [ImpactCheck.analyze_files] in Hr.
    destruct (skipped f) eqn:Ef; [by eapply IH|].
    destruct (analyze_file f base_ref head_ref r) as [r1|] eqn:E1;
      [|discriminate].
    cbn [mbind result_bind] in Hr.
    destruct (IH _ Hr e He) as [Hin|Hs]; [|by right].
    unfold ImpactCheck.analyze_file in E1.
    destruct (get_file_diff git_diff_file f base_ref head_ref) as [diff|];
      [|discriminate].
    cbn [mbind result_bind] in E1.
    destruct (analyze_rules_paths _ _ _ _ _ E1 e Hin) as [?| ->];
      [by left|by right].
Qed.

Lemma analyze_nonempty (files : list string) (base_ref head_ref : string)
    (r : ImpactReport) :
  fst <$> get_changed_files base_ref head_ref r = Ok files ->
  files <> [] ->
  analyze base_ref head_ref r
  = (fun r' => generate_summary (set_changed_files r' files))
      <$> analyze_files files base_ref head_ref r.
Proof.
  unfold ImpactCheck.analyze, ImpactCheck.get_changed_files.
  destruct (git_diff_names base_ref head_ref) as [stdout| |];
    cbn [fmap result_fmap mbind result_bind fst]; intros [= <-] Hne;
    [|done].
  destruct (List.filter _ _) as [|f fs]; [done|].
  rewrite analyze_files_changed_files.
  by destruct (analyze_files (f :: fs) base_ref head_ref r).
Qed.

(** C6: a changed file under [.github/] is passed over, wherever it stands
    in the list and whatever the rules and its diff are: the loop over the
    files gives the same report with and without it; no evidence of the
    final report names it; and the evidences, the overall severity and the
    counts of the final report are those of the analysis of the other
    files. *)
Theorem github_files_excluded (before after : list string) (f : string)
    (base_ref head_ref : string) (report : ImpactReport) :
  startswith f ".github/" = true ->
  analyze_files (before ++ f :: after) base_ref head_ref report
  = analyze_files (before ++ after) base_ref head_ref report
  /\ forall r,
       fst <$> get_changed_files base_ref head_ref new_report
       = Ok (before ++ f :: after) ->
       analyze base_ref head_ref new_report = Ok r ->
       (forall e, e ∈ items r -> ImpactCheck.file_path e <> f)
       /\ exists r0,
            analyze_files (before ++ after) base_ref head_ref new_report
            = Ok r0
            /\ items r = items r0
            /\ overall_impact r = overall_impact r0
            /\ summary r = summary (generate_summary r0).
Proof.
  intros Hprefix. pose proof (skipped_prefix f Hprefix) as Hf.
  split; [by apply analyze_files_skip|].
  intros r Hfiles Hr.
  rewrite (analyze_nonempty _ _ _ _ Hfiles) in Hr by (by destruct before).
  rewrite analyze_files_skip in Hr by done.
  destruct (analyze_files (before ++ after) base_ref head_ref new_report)
    as [r0|] eqn:E0; [|discriminate].
  injection Hr as <-. split; [|by exists r0].
  intros e He Heq. simpl in He.
  destruct (analyze_files_paths _ _ _ _ _ E0 e He) as [Hin|Hs].
  - by apply not_elem_of_nil in Hin.
  - rewrite Heq in Hs. congruence.
Qed.

(** When the list of changed files is not empty, the report [analyze]
    returns carries the tallies of its evidences. *)
Lemma analyze_finalized (base_ref head_ref : string) (files : list string)
    (r : ImpactReport) :
  fst <$> get_changed_files base_ref head_ref new_report = Ok files ->
  files <> [] ->
  analyze base_ref head_ref new_report = Ok r ->
  summary r !! "total_items" = Some (Z.of_nat (length (items r)))
  /\ summary r !! "critical" = Some (tally CRITICAL (items r))
  /\ summary r !! "high" = Some (tally HIGH (items r))
  /\ summary r !! "medium" = Some (tally MEDIUM (items r))
  /\ summary r !! "low" = Some (tally LOW (items r)).
Proof.
  intros Hfiles Hne Hr. rewrite (analyze_nonempty _ _ _ _ Hfiles Hne) in Hr.
  destruct (analyze_files _ base_ref head_ref new_report) as [r0|];
    [|discriminate].
  injection Hr as <-. apply (summary_lookup (set_changed_files r0 _)).
Qed.

(** C10: in a finalized report [total_items] is the number of evidences and
    the four counts tally the evidences of severity CRITICAL, HIGH, MEDIUM
    and LOW, so that their sum is the total less the evidences of severity
    NONE. The level "none" is one a rule may name: when such a rule fires,
    its evidence is appended, the overall severity stays, [total_items]
    grows by one and the four counts stay, their sum then being strictly
    below [total_items]. *)
Theorem summary_counts (r : ImpactReport) :
  let s := summary (generate_summary r) in
  let four l := tally CRITICAL l + tally HIGH l + tally MEDIUM l + tally LOW l in
  s !! "total_items" = Some (Z.of_nat (length (items r)))
  /\ s !! "critical" = Some (tally CRITICAL (items r))
  /\ s !! "high" = Some (tally HIGH (items r))
  /\ s !! "medium" = Some (tally MEDIUM (items r))
  /\ s !! "low" = Some (tally LOW (items r))
  /\ four (items r) = Z.of_nat (length (items r)) - tally NONE (items r)
  /\ ImpactLevel_of_value "none" = Some NONE
  /\ forall file_path diff_content name cfg rest details,
       cfg_impact_level cfg = "none" ->
       rule_details findall render file_path diff_content cfg
       = Ok (Some details) ->
       let e := {| category := name;
                   impact_level := NONE;
                   file_path := file_path;
                   description := cfg_description cfg;
                   details := details;
                   recommendation := cfg_recommendation cfg |} in
       let r' := add_item r e in
       let s' := summary (generate_summary r') in
       analyze_rules file_path diff_content ((name, cfg) :: rest) r
       = analyze_rules file_path diff_content rest r'
       /\ items r' = items r ++ [e]
       /\ overall_impact r' = overall_impact r
       /\ s' !! "total_items" = Some (Z.of_nat (length (items r)) + 1)
       /\ s' !! "critical" = s !! "critical"
       /\ s' !! "high" = s !! "high"
       /\ s' !! "medium" = s !! "medium"
       /\ s' !! "low" = s !! "low"
       /\ four (items r') < Z.of_nat (length (items r')).
Proof.
  intros s four.
  destruct (summary_lookup r) as (Ht & Hc & Hh & Hm & Hl).
  pose proof (tally_total (items r)) as Htotal.
  split; [exact Ht|]. split; [exact Hc|]. split; [exact Hh|].
  split; [exact Hm|]. split; [exact Hl|].
  split; [unfold four; lia|]. split; [reflexivity|].
  intros file diff name cfg rest details Hnone Hd e r' s'.
  destruct (summary_lookup r') as (Ht' & Hc' & Hh' & Hm' & Hl').
  assert (Hitems : items r' = items r ++ [e]) by reflexivity.
  assert (Htally : forall level, level <> NONE ->
            tally level (items r') = tally level (items r)).
  { intros level Hlevel. rewrite Hitems, tally_app.
    unfold tally at 2. rewrite filter_cons. simpl.
    rewrite decide_False by done. simpl. lia. }
  split.
  { cbn [ImpactCheck.analyze_rules]. rewrite Hd, Hnone. reflexivity. }
  split; [exact Hitems|].
  split.
  { unfold r'. rewrite add_item_overall. simpl.
    apply rank_inj. rewrite max_level_rank. simpl. lia. }
  unfold s', s. rewrite Ht', Hc', Hh', Hm', Hl', Hc, Hh, Hm, Hl.
  rewrite !Htally by done.
  split.
  { rewrite Hitems, length_app. simpl. f_equal. lia. }
  repeat (split; [reflexivity|]).
  unfold four. rewrite !Htally by done.
  pose proof (tally_nonneg NONE (items r)).
  rewrite Hitems, length_app. simpl. lia.
Qed.

End AnalyzeFacts.

(** C8, at the empty list of changed files (the subprocess printed no name,
    or failed): [analyze] returns the report as it was built, without the
    summary; its [summary] is the empty dictionary, with no [total_items] and
    no count. A list whose only file is passed over reaches
    [generate_summary] and gets the five counts, all zero. *)
Theorem analyze_no_changed_files {Match : Type} `{Countable Match}
    (findall : string -> string -> re_flags -> option (list Match))
    (render : Match -> string)
    (git_diff_file : string -> string -> string -> completed)
    (config_patterns : list (string * PatternConfig))
    (base_ref head_ref : string) :
  let run names :=
    analyze findall render (fun _ _ => names) git_diff_file config_patterns
      base_ref head_ref new_report in
  run (Stdout "") = Ok new_report
  /\ run CalledProcessError = Ok new_report
  /\ overall_impact new_report = NONE
  /\ items new_report = []
  /\ summary new_report = ∅
  /\ summary new_report !! "total_items" = None
  /\ exists r,
       run (Stdout ".github/workflows/ci.yml") = Ok r
       /\ items r = []
       /\ summary r !! "total_items" = Some 0
       /\ summary r !! "critical" = Some 0
       /\ summary r !! "high" = Some 0
       /\ summary r !! "medium" = Some 0
       /\ summary r !! "low" = Some 0.
Proof.
  repeat split; try reflexivity.
  eexists. repeat split; reflexivity.
Qed.

(** ** The path matcher *)

Import Fnmatch.

Lemma list_ascii_of_string_app (a b : string) :
  list_ascii_of_string (a +:+ b)
  = list_ascii_of_string a ++ list_ascii_of_string b.
Proof. induction a as [|c a IH]; [reflexivity|]. simpl. by rewrite IH. Qed.

Lemma string_of_list_ascii_app (a b : list ascii) :
  string_of_list_ascii (a ++ b)
  = string_of_list_ascii a +:+ string_of_list_ascii b.
Proof. induction a as [|c a IH]; [reflexivity|]. simpl. by rewrite IH. Qed.

Lemma matches_star (ps : list piece) (s : list ascii) :
  matches (STAR :: ps) s
  = (matches ps s
     || match s with
        | [] => false
        | _ :: s' => matches (STAR :: ps) s'
        end)%bool.
Proof. by destruct s. Qed.

Lemma matches_star_true (ps : list piece) (s : list ascii) :
  matches (STAR :: ps) s = true
  <-> exists s1 s2, s = s1 ++ s2 /\ matches ps s2 = true.
Proof.
  induction s as [|x s IH]; rewrite matches_star.
  - rewrite orb_false_r. split.
    + intros Hm. by exists [], [].
    + intros (s1 & s2 & Hs & Hm). symmetry in Hs.
      apply app_eq_nil in Hs as [_ ->]. exact Hm.
  - rewrite orb_true_iff, IH. split.
    + intros [Hm|(s1 & s2 & -> & Hm)].
      * by exists [], (x :: s).
      * by exists (x :: s1), s2.
    + intros (s1 & s2 & Hs & Hm). destruct s1 as [|y s1].
      * left. simpl in Hs. by rewrite Hs.
      * right. injection Hs as -> ->. by exists s1, s2.
Qed.

Lemma matches_lits (l : list ascii) (ps : list piece) (s : list ascii) :
  matches ((Lit <$> l) ++ ps) s = true
  <-> exists s', s = l ++ s' /\ matches ps s' = true.
Proof.
  revert s. induction l as [|c l IH]; intros s.
  - simpl. split; [by exists s|]. by intros (s' & -> & Hm).
  - cbn [fmap list_fmap app]. destruct s as [|x s].
    + simpl. split; [done|]. by intros (s' & Hs & _).
    + change (matches (Lit c :: (Lit <$> l) ++ ps) (x :: s))
        with (Ascii.eqb c x && matches ((Lit <$> l) ++ ps) s)%bool.
      rewrite andb_true_iff, IH, Ascii.eqb_eq. split.
      * intros [-> (s' & -> & Hm)]. by exists s'.
      * intros (s' & Hs & Hm). injection Hs as -> ->. split; [done|].
        by exists s'.
Qed.

Lemma matches_lits_only (l s : list ascii) :
  matches (Lit <$> l) s = true <-> s = l.
Proof.
  rewrite <- (app_nil_r (Lit <$> l)), matches_lits. split.
  - intros (s' & -> & Hm). destruct s'; [by rewrite app_nil_r|discriminate].
  - intros ->. exists []. by rewrite app_nil_r.
Qed.

Lemma translate_from_plain (l rest : list ascii) :
  forallb plain_char l = true ->
  translate_from 0 (l ++ rest) = (Lit <$> l) ++ translate_from 0 rest.
Proof.
  induction l as [|c l IH]; intros Hl; [reflexivity|].
  simpl in Hl. apply andb_true_iff in Hl as [Hc Hl].
  unfold plain_char in Hc. apply negb_true_iff in Hc.
  apply orb_false_iff in Hc as [Hc H3]. apply orb_false_iff in Hc as [H1 H2].
  cbn [app translate_from fmap list_fmap]. rewrite H1, H2, H3.
  by rewrite IH.
Qed.

Lemma translate_from_plain_only (l : list ascii) :
  forallb plain_char l = true -> translate_from 0 l = Lit <$> l.
Proof.
  intros Hl. rewrite <- (app_nil_r l) at 1.
  rewrite translate_from_plain by done. apply app_nil_r.
Qed.

Lemma translate_from_star (rest : list ascii) :
  translate_from 0 ("*"%char :: rest)
  = match translate_from 0 rest with
    | STAR :: more => STAR :: more
    | more => STAR :: more
    end.
Proof. reflexivity. Qed.

Lemma translate_star_plain (pre suf : string) :
  plain pre -> plain suf ->
  translate (pre +:+ "*" +:+ suf)
  = (Lit <$> list_ascii_of_string pre)
      ++ STAR :: (Lit <$> list_ascii_of_string suf).
Proof.
  intros Hpre Hsuf. unfold translate.
  rewrite list_ascii_of_string_app, translate_from_plain by done.
  f_equal. change (list_ascii_of_string ("*" +:+ suf))
    with ("*"%char :: list_ascii_of_string suf).
  rewrite translate_from_star, translate_from_plain_only by done.
  by destruct (list_ascii_of_string suf).
Qed.

Lemma fnmatch_star_plain (pre suf name : string) :
  plain pre -> plain suf ->
  fnmatch name (pre +:+ "*" +:+ suf) = true
  <-> exists mid, name = pre +:+ mid +:+ suf.
Proof.
  intros Hpre Hsuf. unfold fnmatch, fnmatchcase.
  rewrite translate_star_plain, matches_lits by done. split.
  - intros (s' & Hname & Hm).
    apply matches_star_true in Hm as (s1 & s2 & -> & Hm).
    apply matches_lits_only in Hm as ->.
    exists (string_of_list_ascii s1).
    rewrite <- (string_of_list_ascii_of_string name), Hname.
    rewrite !string_of_list_ascii_app.
    by rewrite !string_of_list_ascii_of_string.
  - intros (mid & ->). exists (list_ascii_of_string (mid +:+ suf)).
    split; [by rewrite !list_ascii_of_string_app|].
    apply matches_star_true.
    exists (list_ascii_of_string mid), (list_ascii_of_string suf).
    split; [by rewrite list_ascii_of_string_app|]. by apply matches_lits_only.
Qed.

(** X24: a path matches a pattern made of plain text, one star and plain
    text exactly when it is the first text, some run of characters and the
    second text put end to end, the run being any text at all, separators
    included and the empty text too (the two texts do not overlap); a rule
    without content patterns that lists such a pattern fires on every such
    path with no detail. *)
Theorem single_star_any_run {Match : Type} `{Countable Match}
    (findall : string -> string -> re_flags -> option (list Match))
    (render : Match -> string)
    (pre suf file_path : string) :
  plain pre -> plain suf ->
  (fnmatch file_path (pre +:+ "*" +:+ suf) = true
   <-> exists mid, file_path = pre +:+ mid +:+ suf)
  /\ forall cfg diff_content,
       (pre +:+ "*" +:+ suf) ∈ paths cfg ->
       content_patterns cfg = [] ->
       (exists mid, file_path = pre +:+ mid +:+ suf) ->
       rule_details findall render file_path diff_content cfg = Ok (Some []).
Proof.
  intros Hpre Hsuf. split; [by apply fnmatch_star_plain|].
  intros cfg diff Hin Hc Hmid.
  apply (fnmatch_star_plain pre suf file_path Hpre Hsuf) in Hmid.
  unfold rule_details.
  assert (check_path_patterns file_path (paths cfg) = true) as ->.
  { apply check_path_patterns_true. by eexists. }
  rewrite andb_false_r, Hc. reflexivity.
Qed.

(** ** The notification sender *)

Import SlackNotify.

Section SenderFacts.

Variable upper : string -> string.
Variable json_dumps : json -> string.
Variable urlparse_accepts : string -> bool.
Variable urlopen : Request -> option string.

#[local] Abbreviation main := (main upper json_dumps urlparse_accepts urlopen).

Lemma with_env_not_exit (environ : gmap string string) (key : string)
    (k : string -> run) (code : Z) :
  (forall v, result (k v) <> Exited code) ->
  result (with_env environ key k) <> Exited code.
Proof. intros Hk. unfold with_env. by destruct (environ !! key). Qed.

Lemma with_env_contacted (environ : gmap string string) (key : string)
    (k : string -> run) (P : run -> Prop) :
  P {| contacted := []; result := KeyError key |} ->
  (forall v, P (k v)) ->
  P (with_env environ key k).
Proof. intros H0 Hk. unfold with_env. by destruct (environ !! key). Qed.

(** C9: the run ends with [sys.exit(0)] and no request exactly when no target
    URL is configured or the change is a draft. Every request that goes out
    is the only one, is for the configured URL, and when [urlopen] raises on
    it the run ends with that error. When the run is not skipped and the
    environment is complete, the request is built: if the constructor
    accepts the URL (it finds a type in it and can parse it), exactly one
    request is handed to [urlopen]; if not, the run ends with the
    [ValueError] of the constructor and nothing is contacted. *)
Theorem notification_skipped_iff (environ : gmap string string) :
  let r := main environ in
  ((contacted r = [] /\ result r = Exited 0)
   <-> no_target environ \/ is_draft environ)
  /\ (forall req, req ∈ contacted r ->
        contacted r = [req]
        /\ environ !! "SC_ASSESSOR_SLACK_URL" = Some (full_url req)
        /\ (forall err, urlopen req = Some err -> result r = DeliveryError err)
        /\ (urlopen req = None -> result r = Returned))
  /\ (~ (no_target environ \/ is_draft environ) ->
      is_Some (environ !! "GITHUB_REPOSITORY") ->
      is_Some (environ !! "GITHUB_SERVER_URL") ->
      is_Some (environ !! "PR_NUMBER") ->
      is_Some (environ !! "OVERALL_IMPACT") ->
      forall url, environ !! "SC_ASSESSOR_SLACK_URL" = Some url ->
        ((url_type_known url && urlparse_accepts url)%bool = true ->
         exists req, contacted r = [req] /\ full_url req = url
                     /\ method req = "POST")
        /\ ((url_type_known url && urlparse_accepts url)%bool = false ->
            contacted r = [] /\ result r = RequestValueError)).
Proof.
  intros r. unfold r, SlackNotify.main, no_target, is_draft.
  destruct (environ !! "SC_ASSESSOR_SLACK_URL") as [url|] eqn:Eurl.
  2:{ split; [split; [by left; left|done]|].
      split; [intros req Hreq; by apply not_elem_of_nil in Hreq|].
      intros Hn. destruct Hn. by left; left. }
  destruct url as [|c url].
  { split; [split; [by left; right|done]|].
    split; [intros req Hreq; by apply not_elem_of_nil in Hreq|].
    intros Hn. destruct Hn. by left; right. }
  set (status := strip (default "" (environ !! "PR_STATUS"))).
  destruct (decide (status ∈ SKIP_PR_STATUSES)) as [Hd|Hd].
  { apply elem_of_singleton in Hd.
    split; [split; [by right|done]|].
    split; [intros req Hreq; by apply not_elem_of_nil in Hreq|].
    intros Hn. destruct Hn. by right. }
  assert (Hnd : status <> "draft").
  { intros Heq. apply Hd. by apply elem_of_singleton. }
  unfold make_request.
  split; [|split].
  - split.
    + intros [_ Hexit]. exfalso. revert Hexit.
      repeat (apply with_env_not_exit; intros ?).
      destruct (url_type_known _ && urlparse_accepts _)%bool; [|done].
      by destruct (urlopen _).
    + intros [[?|?]|?]; done.
  - intros req.
    repeat (apply with_env_contacted;
            [intros Hreq; by apply not_elem_of_nil in Hreq|intros ?]).
    destruct (url_type_known _ && urlparse_accepts _)%bool;
      [|intros Hreq; by apply not_elem_of_nil in Hreq].
    destruct (urlopen _) as [err|] eqn:Eo; simpl;
      intros Hreq; apply list_elem_of_singleton in Hreq as ->; simpl;
      rewrite Eo; repeat split; congruence.
  - intros _ [repo Hrepo] [server Hserver] [number Hnumber] [impact Himpact].
    intros url' [= <-].
    unfold with_env. rewrite Hrepo, Hserver, Hnumber, Himpact.
    destruct (url_type_known _ && urlparse_accepts _)%bool.
    + split; [intros _|done]. destruct (urlopen _); by eexists.
    + split; [done|]. by intros _.
Qed.

End SenderFacts.
(** ** Examples *)

Example two_hunks_numbers : added_lines two_hunks = [("second", 2); ("twelfth", 12)].
Proof. reflexivity. Qed.

Example kessel_added_line :
  rule_details findall_plain id "app/client.py" example_diff
    (content_rule "critical" ["kessel"])
  = Ok (Some ["Found `Kessel` in `app/client.py` at line 2"]).
Proof. vm_compute. reflexivity. Qed.

Example kessel_removed_line :
  rule_details findall_plain id "app/client.py"
    (unlines ["@@ -1,2 +1,1 @@"; " services:"; "-  - uses Kessel"])
    (content_rule "critical" ["kessel"])
  = Ok None.
Proof. vm_compute. reflexivity. Qed.

Example overlapping_patterns_one_entry :
  rule_details findall_plain id "app/client.py" example_diff
    (content_rule "critical" ["kessel"; "KESSEL"])
  = Ok (Some ["Found `Kessel` in `app/client.py` at line 2"]).
Proof. vm_compute. reflexivity. Qed.

(** The search ignores case because of the flag: without it the pattern
    finds nothing in the same line. *)
Example kessel_case :
  findall_plain "kessel" "  - uses Kessel" IGNORECASE = Some ["Kessel"]
  /\ findall_plain "kessel" "  - uses Kessel" NOFLAG = Some [].
Proof. split; reflexivity. Qed.

(** A malformed content pattern ends the analysis of the file with the
    exception of the engine, once a path filter has let the file through and
    the diff has an added line; without an added line the engine is not
    called. *)
Example malformed_pattern_raises :
  analyze_rules findall_plain id "app/client.py" example_diff
    [("broken", content_rule "high" ["("])] new_report
  = Raise FindallRaised
  /\ analyze_rules findall_plain id "app/client.py" ""
       [("broken", content_rule "high" ["("])] new_report
     = Ok new_report.
Proof. split; vm_compute; reflexivity. Qed.

Example none_rule_counted_in_total :
  exists r,
    analyze findall_plain id (fun _ _ => Stdout "app/client.py")
      (fun _ _ _ => Stdout example_diff)
      [("note", content_rule "none" ["kessel"])] "base" "head" new_report
    = Ok r
    /\ overall_impact r = NONE
    /\ summary r !! "total_items" = Some 1
    /\ summary r !! "critical" = Some 0
    /\ summary r !! "high" = Some 0
    /\ summary r !! "medium" = Some 0
    /\ summary r !! "low" = Some 0.
Proof. eexists. repeat split; vm_compute; reflexivity. Qed.

Example gate_medium :
  let report := add_item new_report
                  {| category := "secrets_management"; impact_level := MEDIUM;
                     file_path := "deploy/clowdapp.yml";
                     description := "Secrets configuration change";
                     details := []; recommendation := None |} in
  main_exit (Some fail_on_high) report = 0
  /\ main_exit (Some fail_on_medium) report = 1
  /\ main_exit None report = 0.
Proof. repeat split. Qed.

(** A target without a scheme: the constructor of the request raises and
    nothing is contacted. *)
Example target_without_scheme :
  SlackNotify.main id (fun _ => "") (fun _ => true) (fun _ => None)
    (<["SC_ASSESSOR_SLACK_URL" := "hooks.example/T0"]> complete_environ)
  = {| SlackNotify.contacted := [];
       SlackNotify.result := SlackNotify.RequestValueError |}.
Proof. vm_compute. reflexivity. Qed.

(** ** The statements at concrete inputs *)

(** C1: the specification keeps the star within one path segment, and the
    script calls its path patterns glob patterns; the code matches them with
    [fnmatch], whose star crosses the separator. The rule whose only path
    pattern is "deploy/*.yml" fires, with no detail, on
    "deploy/sub/clowdapp.yml" as it does on "deploy/clowdapp.yml", whatever
    the diff. The built-in patterns are written for a glob with [**]: matched
    with [fnmatch], "migrations/versions/**/*.py" misses a migration that
    lies directly in the directory and "**/*kessel*" misses a file at the
    top of the tree. *)
Theorem single_star_crosses_separator {Match : Type} `{Countable Match}
    (findall : string -> string -> re_flags -> option (list Match))
    (render : Match -> string) (diff_content : string) :
  Fnmatch.fnmatch "deploy/clowdapp.yml" "deploy/*.yml" = true
  /\ Fnmatch.fnmatch "deploy/sub/clowdapp.yml" "deploy/*.yml" = true
  /\ rule_details findall render "deploy/clowdapp.yml" diff_content
       (path_rule ["deploy/*.yml"]) = Ok (Some [])
  /\ rule_details findall render "deploy/sub/clowdapp.yml" diff_content
       (path_rule ["deploy/*.yml"]) = Ok (Some [])
  /\ (exists cfg,
        ("database_migrations", cfg) ∈ default_patterns
        /\ "migrations/versions/**/*.py" ∈ paths cfg
        /\ Fnmatch.fnmatch "migrations/versions/a/0001.py"
             "migrations/versions/**/*.py" = true
        /\ rule_details findall render "migrations/versions/0001.py"
             diff_content cfg = Ok None)
  /\ (exists cfg,
        ("kessel_integration", cfg) ∈ default_patterns
        /\ paths cfg = ["**/*kessel*"]
        /\ Fnmatch.fnmatch "app/kessel_client.py" "**/*kessel*" = true
        /\ rule_details findall render "kessel_client.py"
             diff_content cfg = Ok None).
Proof.
  split; [reflexivity|]. split; [reflexivity|].
  split; [reflexivity|]. split; [reflexivity|]. split.
  - eexists. split; [apply list_elem_of_here|].
    split; [apply list_elem_of_here|]. split; reflexivity.
  - eexists. split; [do 2 apply list_elem_of_further; apply list_elem_of_here|].
    split; [reflexivity|]. split; reflexivity.
Qed.

Lemma single_star_any_run_witness :
  plain "deploy/" /\ plain ".yml"
  /\ rule_details findall_plain id "deploy/clowdapp.yml" example_diff
       (path_rule ["deploy/*.yml"]) = Ok (Some [])
  /\ rule_details findall_plain id "deploy/sub/clowdapp.yml" example_diff
       (path_rule ["deploy/*.yml"]) = Ok (Some []).
Proof.
  assert (Hpre : plain "deploy/") by reflexivity.
  assert (Hsuf : plain ".yml") by reflexivity.
  split; [exact Hpre|]. split; [exact Hsuf|]. split.
  - apply (proj2 (single_star_any_run findall_plain id "deploy/" ".yml"
                    "deploy/clowdapp.yml" Hpre Hsuf)).
    + apply list_elem_of_here.
    + reflexivity.
    + by exists "clowdapp".
  - apply (proj2 (single_star_any_run findall_plain id "deploy/" ".yml"
                    "deploy/sub/clowdapp.yml" Hpre Hsuf)).
    + apply list_elem_of_here.
    + reflexivity.
    + by exists "sub/clowdapp".
Defined.

Lemma added_lines_numbering_witness :
  hunk_match "@@ -10,1 +11,2 @@" = Some 11
  /\ is_added "+twelfth" = true
  /\ added_lines two_hunks !! 1%nat = Some ("twelfth", 12).
Proof.
  split; [reflexivity|]. split; [reflexivity|].
  apply (proj2 (proj2 (added_lines_numbering two_hunks))
           ["@@ -1,2 +1,3 @@"; " first"; "+second"; " third"]
           "@@ -10,1 +11,2 @@" 11 [" eleventh"] "+twelfth" []).
  - reflexivity.
  - reflexivity.
  - by repeat constructor.
  - reflexivity.
Defined.



Lemma example_diff_added : added_text example_diff "  - uses Kessel".
Proof.
  split; [|reflexivity].
  do 2 apply list_elem_of_further. apply list_elem_of_here.
Qed.


Lemma details_deduplicated_witness :
  content_patterns seven_letters <> []
  /\ exists details,
       rule_details findall_plain id "notes.txt" seven_diff seven_letters
       = Ok (Some details)
       /\ length details = 5%nat.
Proof.
  assert (Hc : content_patterns seven_letters <> []) by discriminate.
  split; [exact Hc|]. eexists. split; [vm_compute; reflexivity|].
  match goal with
  | |- length ?d = _ =>
      destruct (details_deduplicated findall_plain id "notes.txt" seven_diff
                  seven_letters d Hc) as (matches & Hm & Hrest)
  end.
  - vm_compute. reflexivity.
  - simpl in Hrest. destruct Hrest as (_ & _ & _ & _ & _ & _ & _ & Hfive).
    apply Hfive. vm_compute in Hm. injection Hm as <-. vm_compute. lia.
Defined.

Lemma github_files_excluded_witness :
  startswith ".github/workflows/ci.yml" ".github/" = true
  /\ exists r,
       analyze findall_plain id (fun _ _ => Stdout changed_names)
         (fun _ _ _ => Stdout example_diff) catch_all "base" "head" new_report
       = Ok r
       /\ (forall e, e ∈ items r ->
             ImpactCheck.file_path e <> ".github/workflows/ci.yml").
Proof.
  assert (Hprefix : startswith ".github/workflows/ci.yml" ".github/" = true)
    by reflexivity.
  split; [exact Hprefix|].
  eexists. split; [vm_compute; reflexivity|].
  apply (proj2 (github_files_excluded findall_plain id
                  (fun _ _ => Stdout changed_names)
                  (fun _ _ _ => Stdout example_diff) catch_all
                  ["deploy/clowdapp.yml"] [] ".github/workflows/ci.yml"
                  "base" "head" new_report Hprefix)).
  - reflexivity.
  - vm_compute. reflexivity.
Defined.

(** A run with a complete environment and an open change: one request, to
    the configured URL; with the variable unset, none. *)
Lemma notification_skipped_iff_witness :
  let r := SlackNotify.main id (fun _ => "") (fun _ => true) (fun _ => None)
             complete_environ in
  ~ (no_target complete_environ \/ is_draft complete_environ)
  /\ exists req, SlackNotify.contacted r = [req]
                 /\ SlackNotify.full_url req = "https://hooks.example/T0"
                 /\ SlackNotify.method req = "POST".
Proof.
  intros r.
  assert (Hsent : ~ (no_target complete_environ \/ is_draft complete_environ)).
  { intros [[Hn|Hn]|Hd]; vm_compute in Hn || vm_compute in Hd; discriminate. }
  split; [exact Hsent|].
  apply (proj2 (proj2 (notification_skipped_iff id (fun _ => "")
                         (fun _ => true) (fun _ => None) complete_environ))
           Hsent); try (by eexists); reflexivity.
Defined.

(** * Further properties *)

(** ** Levels, gate and summary *)

Lemma max_of_app (l1 l2 : list ImpactLevel) :
  max_of (l1 ++ l2) = max_level (max_of l1) (max_of l2).
Proof.
  induction l1 as [|x l1 IH].
  - simpl. by rewrite max_level_NONE_l.
  - change (max_level x (max_of (l1 ++ l2))
            = max_level (max_level x (max_of l1)) (max_of l2)).
    by rewrite IH, max_level_assoc.
Qed.

Lemma max_level_NONE_r (a : ImpactLevel) : max_level a NONE = a.
Proof. by destruct a. Qed.

Lemma max_level_le_l (a b : ImpactLevel) :
  (rank a <= rank (max_level a b))%nat.
Proof. rewrite max_level_rank. lia. Qed.

(** X1: the four comparisons of [ImpactLevel] follow the rank, and of two
    levels exactly one is below, equal to or above the other. *)
Theorem comparisons_follow_rank (a b : ImpactLevel) :
  (ImpactLevel_lt a b = true <-> (rank a < rank b)%nat)
  /\ (ImpactLevel_gt a b = true <-> (rank b < rank a)%nat)
  /\ (ImpactLevel_ge a b = true <-> (rank b <= rank a)%nat)
  /\ (ImpactLevel_eq a b = true <-> a = b)
  /\ (a = b <-> rank a = rank b)
  /\ ImpactLevel_gt a b = ImpactLevel_lt b a
  /\ ImpactLevel_ge a b = (ImpactLevel_gt a b || ImpactLevel_eq a b)%bool.
Proof.
  rewrite ImpactLevel_lt_rank, ImpactLevel_gt_rank, ImpactLevel_ge_rank.
  rewrite Nat.ltb_lt, Nat.ltb_lt, Nat.leb_le.
  repeat split; try done.
  - by apply ImpactLevel_eq_true.
  - by apply ImpactLevel_eq_true.
  - by intros ->.
  - apply rank_inj.
  - by rewrite ImpactLevel_lt_rank.
  - by destruct a, b.
Qed.

(** X2: [ImpactLevel(v)] succeeds exactly on the five values, and gives the
    member whose value is [v]. *)
Theorem level_of_value_iff (v : string) (l : ImpactLevel) :
  ImpactLevel_of_value v = Some l <-> value l = v.
Proof.
  split.
  - unfold ImpactLevel_of_value. intros Hfind.
    apply List.find_some in Hfind as [_ Heq]. by apply String.eqb_eq in Heq.
  - intros <-. apply ImpactLevel_of_value_value.
Qed.

Lemma main_exit_some (f : FailOn) (report : ImpactReport) :
  main_exit (Some f) report
  = if (rank (fail_on_level f) <=? rank (overall_impact report))%nat
    then 1 else 0.
Proof.
  unfold main_exit. by rewrite fail_on_threshold, ImpactLevel_ge_rank.
Qed.

(** X3: the gate is monotone: a run that fails keeps failing when the
    threshold is lowered or the overall severity raised; and a report whose
    overall severity is NONE passes every threshold. *)
Theorem gate_monotone (f f' : FailOn) (report report' : ImpactReport) :
  (rank (fail_on_level f') <= rank (fail_on_level f))%nat ->
  (rank (overall_impact report) <= rank (overall_impact report'))%nat ->
  (main_exit (Some f) report = 1 -> main_exit (Some f') report' = 1)
  /\ (overall_impact report = NONE -> main_exit (Some f) report = 0).
Proof.
  intros Hf Hr. rewrite !main_exit_some. split.
  - destruct (rank (fail_on_level f) <=? rank (overall_impact report))%nat
      eqn:E; [|discriminate].
    apply Nat.leb_le in E. intros _.
    rewrite (proj2 (Nat.leb_le _ _)); [done|lia].
  - intros ->. by destruct f.
Qed.

(** X4: [generate_summary] writes exactly the five keys, with counts that are
    not negative; it changes nothing else, and a second call changes
    nothing; the value written under [total_items] is the number of items,
    the four counts written add up to at most that, and to exactly that when
    no item has the level NONE. *)
Theorem generate_summary_shape (r : ImpactReport) :
  let r' := generate_summary r in
  dom (summary r')
  = ({[ "total_items"; "critical"; "high"; "medium"; "low" ]} : gset string)
  /\ (forall k n, summary r' !! k = Some n -> 0 <= n)
  /\ items r' = items r
  /\ overall_impact r' = overall_impact r
  /\ changed_files r' = changed_files r
  /\ generate_summary r' = r'
  /\ exists total critical high medium low,
       summary r' !! "total_items" = Some total
       /\ summary r' !! "critical" = Some critical
       /\ summary r' !! "high" = Some high
       /\ summary r' !! "medium" = Some medium
       /\ summary r' !! "low" = Some low
       /\ total = Z.of_nat (length (items r))
       /\ critical + high + medium + low <= total
       /\ ((forall e, e ∈ items r -> impact_level e <> NONE) ->
           critical + high + medium + low = total).
Proof.
  intros r'. split; [|split].
  - unfold r', generate_summary. cbn [summary list_to_map foldr].
    rewrite !dom_insert_L, dom_empty_L. set_solver.
  - intros k n. unfold r', generate_summary. cbn [summary list_to_map foldr].
    unfold count_level.
    repeat (rewrite lookup_insert; case_decide; [intros [= <-]; lia|]).
    by rewrite lookup_empty.
  - repeat (split; [done|]).
    destruct (summary_lookup r) as (Ht & Hc & Hh & Hm & Hl).
    pose proof (tally_total (items r)) as Htotal.
    pose proof (tally_nonneg NONE (items r)) as Hnonneg.
    exists (Z.of_nat (length (items r))), (tally CRITICAL (items r)),
      (tally HIGH (items r)), (tally MEDIUM (items r)), (tally LOW (items r)).
    split; [exact Ht|]. split; [exact Hc|]. split; [exact Hh|].
    split; [exact Hm|]. split; [exact Hl|]. split; [reflexivity|].
    split; [lia|].
    intros Hnone.
    assert (tally NONE (items r) = 0) as Hz; [|lia].
    unfold tally. clear Htotal Hnonneg Ht Hc Hh Hm Hl.
    induction (items r) as [|e l IH]; [reflexivity|].
    rewrite filter_cons, decide_False.
    + apply IH. intros e' He'. apply Hnone. by right.
    + apply Hnone. by left.
Qed.

(** ** The hunk header and the diff scanner *)

Lemma strip_prefix_app (p s : string) : strip_prefix p (p +:+ s) = Some s.
Proof.
  induction p as [|a p IH]; [reflexivity|].
  change (String a p +:+ s) with (String a (p +:+ s)).
  cbn [strip_prefix]. by rewrite Ascii.eqb_refl.
Qed.

Lemma pretty_N_char_digit (d : N) :
  (d < 10)%N ->
  is_digit (pretty_N_char d) = true
  /\ Z.of_N (N_of_ascii (pretty_N_char d)) - 48 = Z.of_N d.
Proof.
  intros Hd.
  assert (d = 0 \/ d = 1 \/ d = 2 \/ d = 3 \/ d = 4 \/ d = 5 \/ d = 6
          \/ d = 7 \/ d = 8 \/ d = 9)%N as Hcases by lia.
  repeat (destruct Hcases as [->|Hcases]; [by vm_compute|]).
  subst. by vm_compute.
Qed.

Lemma pretty_N_go_app (x : N) (s t : string) :
  pretty_N_go x (s +:+ t) = pretty_N_go x s +:+ t.
Proof.
  revert s. induction (N.lt_wf_0 x) as [x _ IH]; intros s.
  assert (x = 0 \/ 0 < x)%N as [->|Hx] by lia.
  - by rewrite !pretty_N_go_0.
  - rewrite (pretty_N_go_step x s), (pretty_N_go_step x (s +:+ t)) by done.
    apply (IH (x `div` 10)%N (N.div_lt x 10 Hx eq_refl)
              (String (pretty_N_char (x `mod` 10)) s)).
Qed.

Lemma span_digits_pretty_N_go (x : N) (s ds r : string) :
  span_digits s = (ds, r) ->
  span_digits (pretty_N_go x s) = (pretty_N_go x ds, r).
Proof.
  revert s ds. induction (N.lt_wf_0 x) as [x _ IH]; intros s ds Hs.
  assert (x = 0 \/ 0 < x)%N as [->|Hx] by lia.
  - by rewrite !pretty_N_go_0.
  - rewrite (pretty_N_go_step x s), (pretty_N_go_step x ds) by done.
    apply IH; [by apply N.div_lt|].
    cbn [span_digits].
    destruct (pretty_N_char_digit (x `mod` 10)%N) as [-> _];
      [by apply N.mod_lt|].
    by rewrite Hs.
Qed.

Lemma int_of_digits_pretty_N_go (x : N) (s : string) :
  int_of_digits 0 (pretty_N_go x s) = int_of_digits (Z.of_N x) s.
Proof.
  revert s. induction (N.lt_wf_0 x) as [x _ IH]; intros s.
  assert (x = 0 \/ 0 < x)%N as [->|Hx] by lia.
  - by rewrite pretty_N_go_0.
  - rewrite pretty_N_go_step by done.
    rewrite IH by (by apply N.div_lt). cbn [int_of_digits].
    destruct (pretty_N_char_digit (x `mod` 10)%N) as [_ ->];
      [by apply N.mod_lt|].
    f_equal. rewrite (N.div_mod x 10) at 3 by done. lia.
Qed.

Lemma pretty_N_unfold (n : N) :
  pretty n = if decide (n = 0%N) then "0" else pretty_N_go n "".
Proof. reflexivity. Qed.

Lemma int_of_digits_pretty (n : N) : int_of_digits 0 (pretty n) = Z.of_N n.
Proof.
  rewrite pretty_N_unfold. case_decide as Hn; [by subst|].
  by rewrite int_of_digits_pretty_N_go.
Qed.

Lemma span_digits_pretty (n : N) (t : string) :
  span_digits t = ("", t) ->
  span_digits (pretty n +:+ t) = (pretty n, t).
Proof.
  intros Ht. rewrite pretty_N_unfold. case_decide as Hn.
  - change ("0" +:+ t) with (String "0" t). cbn [span_digits].
    change (is_digit "0") with true. cbn iota. by rewrite Ht.
  - rewrite <- pretty_N_go_app. change ("" +:+ t) with t.
    by apply span_digits_pretty_N_go.
Qed.

Lemma pretty_N_nonempty (n : N) : pretty n <> "".
Proof.
  rewrite pretty_N_unfold. case_decide as Hn; [done|].
  rewrite pretty_N_go_step by lia.
  change (String ?c "") with ("" +:+ String c "").
  rewrite pretty_N_go_app. by destruct (pretty_N_go _ "").
Qed.

Lemma digits1_pretty (n : N) (t : string) :
  span_digits t = ("", t) ->
  digits1 (pretty n +:+ t) = Some (pretty n, t).
Proof.
  intros Ht. unfold digits1. rewrite (span_digits_pretty n t Ht).
  pose proof (pretty_N_nonempty n). by destruct (pretty n).
Qed.

Lemma skip_comma_digits_count (b : option N) (t : string) :
  skip_comma_digits (count_text b +:+ String " " t) = String " " t.
Proof.
  destruct b as [n|]; [|reflexivity].
  change (count_text (Some n) +:+ String " " t)
    with (String "," (pretty n +:+ String " " t)).
  unfold skip_comma_digits.
  rewrite (span_digits_pretty n (String " " t) eq_refl).
  pose proof (pretty_N_nonempty n). by destruct (pretty n).
Qed.

Lemma span_digits_count (b : option N) (t : string) :
  span_digits (count_text b +:+ String " " t)
  = ("", count_text b +:+ String " " t).
Proof. by destruct b. Qed.

(** X5: a hunk header in the form the diff prints, with or without the two
    counts and whatever follows the closing marker, is recognised, and the
    cursor it gives is the start line of the new file. *)
Theorem hunk_match_header (a c : N) (b d : option N) (rest : string) :
  hunk_match (hunk_header a b c d rest) = Some (Z.of_N c).
Proof.
  unfold hunk_match, hunk_header.
  rewrite strip_prefix_app. cbn [mbind option_bind].
  change (" +" +:+ ?t) with (String " " ("+" +:+ t)).
  change (" @@" +:+ ?t) with (String " " ("@@" +:+ t)).
  rewrite digits1_pretty by apply span_digits_count.
  cbn [mbind option_bind]. rewrite skip_comma_digits_count.
  change (String " " ("+" +:+ ?t)) with (" +" +:+ t).
  rewrite strip_prefix_app. cbn [mbind option_bind].
  rewrite digits1_pretty by apply span_digits_count.
  cbn [mbind option_bind]. rewrite skip_comma_digits_count.
  change (String " " ("@@" +:+ ?t)) with (" @@" +:+ t).
  rewrite strip_prefix_app. cbn [mbind option_bind].
  by rewrite int_of_digits_pretty.
Qed.

Lemma span_digits_digits (s d r : string) :
  span_digits s = (d, r) ->
  forall acc, 0 <= acc -> 0 <= int_of_digits acc d.
Proof.
  revert d r. induction s as [|c s IH]; intros d r Hs acc Hacc.
  - injection Hs as <- <-. exact Hacc.
  - cbn [span_digits] in Hs. destruct (is_digit c) eqn:Ec.
    + destruct (span_digits s) as [d' r'] eqn:Es. injection Hs as <- <-.
      cbn [int_of_digits]. eapply IH; [done|].
      unfold is_digit in Ec. apply andb_true_iff in Ec as [E1 _].
      apply N.leb_le in E1. lia.
    + injection Hs as <- <-. exact Hacc.
Qed.

Lemma hunk_match_nonneg (diff_line : string) (c : Z) :
  hunk_match diff_line = Some c -> 0 <= c.
Proof.
  unfold hunk_match, digits1. intros Hm.
  destruct (strip_prefix "@@ -" diff_line) as [r1|]; [|discriminate].
  cbn [mbind option_bind] in Hm.
  destruct (span_digits r1) as [d1 r2]. destruct d1; [discriminate|].
  cbn [mbind option_bind] in Hm.
  destruct (strip_prefix " +" _) as [r3|]; [|discriminate].
  cbn [mbind option_bind] in Hm.
  destruct (span_digits r3) as [d2 r4] eqn:E3. destruct d2; [discriminate|].
  cbn [mbind option_bind] in Hm.
  destruct (strip_prefix " @@" _); [|discriminate].
  injection Hm as <-. by apply (span_digits_digits _ _ _ E3).
Qed.

Lemma scan_diff_pairs_nonneg (n : Z) (ls : list string) :
  0 <= n -> forall p, p ∈ scan_diff pair_line n ls -> 0 <= p.2.
Proof.
  revert n. induction ls as [|l ls IH]; intros n Hn p Hp.
  - by apply not_elem_of_nil in Hp.
  - cbn [scan_diff] in Hp. destruct (hunk_match l) as [c|] eqn:Eh.
    + apply (IH c); [by eapply hunk_match_nonneg|done].
    + destruct (is_added l).
      * apply elem_of_cons in Hp as [->|Hp]; [done|].
        apply (IH (n + 1)); [lia|done].
      * destruct (_ || _)%bool; [by apply (IH n)|].
        destruct (negb _); [apply (IH (n + 1)); [lia|done]|by apply (IH n)].
Qed.

Lemma empty_diff_no_added_text (text : string) : ~ added_text "" text.
Proof.
  intros [Hin _]. apply list_elem_of_singleton in Hin. discriminate.
Qed.

Section ScanFacts.

Context {Match : Type} `{Countable Match}.
Variable findall : string -> string -> re_flags -> option (list Match).
Variable render : Match -> string.

(** X6: the call returns exactly when the engine raises on no pattern of
    the list at the text of any added line of the diff, and what it raises
    otherwise is the exception of the engine. When it returns, the matches
    are those of the patterns, searched with [re.IGNORECASE], in the texts of
    the added lines (the lines of the diff that start with [+] and not with
    [+++], without the marker): every match was found by some pattern in
    such a text and carries the number the line mapper gives that line,
    which is never negative; and every text a pattern finds in such a line
    is a match. *)
Theorem matches_come_from_added_lines (diff_content : string)
    (patterns : list string) :
  ((exists matches,
      check_content_patterns findall diff_content patterns = Ok matches)
   <-> forall p text, p ∈ patterns -> added_text diff_content text ->
                      is_Some (findall p text IGNORECASE))
  /\ (forall e,
        check_content_patterns findall diff_content patterns = Raise e ->
        e = FindallRaised)
  /\ forall matches,
       check_content_patterns findall diff_content patterns = Ok matches ->
       (forall m, m ∈ matches ->
          0 <= line_number m
          /\ exists text p found_texts,
               added_text diff_content text
               /\ (text, line_number m) ∈ added_lines diff_content
               /\ p ∈ patterns
               /\ findall p text IGNORECASE = Some found_texts
               /\ pattern m ∈ found_texts)
       /\ (forall text p found_texts match_text,
             added_text diff_content text -> p ∈ patterns ->
             findall p text IGNORECASE = Some found_texts ->
             match_text ∈ found_texts ->
             exists n,
               (text, n) ∈ added_lines diff_content
               /\ {| pattern := match_text; line_number := n |} ∈ matches).
Proof.
  split; [|split].
  - split.
    + intros [matches Hm] p text Hp Ht.
      by eapply check_content_patterns_Ok_accepted.
    + apply check_content_patterns_total.
  - intros e He. by apply check_content_patterns_Raise in He as [-> _].
  - intros matches Hm. split.
    + intros m Hin.
      apply (check_content_patterns_Ok_elem _ _ _ _ _ Hm) in Hin
        as ([text n] & p & fs & Hline & Hp & Hf & Hin & Hn).
      simpl in Hf, Hn. subst n. split.
      * by apply (scan_diff_pairs_nonneg 0 (split_on newline diff_content)
                    ltac:(lia) _ Hline).
      * exists text, p, fs. split; [|done].
        apply added_lines_texts, list_elem_of_fmap.
        by exists (text, line_number m).
    + intros text p fs x Ht Hp Hf Hx.
      apply added_lines_texts, list_elem_of_fmap in Ht as ([t n] & -> & Hline).
      exists n. split; [done|].
      apply (check_content_patterns_Ok_elem _ _ _ _ _ Hm).
      by exists (t, n), p, fs.
Qed.

(** X7: a diff without added line (an empty diff, removals only) gives no
    match, so no rule with content patterns fires on it. *)
Theorem no_added_line_no_match (diff_content : string) :
  List.filter is_added (split_on newline diff_content) = [] ->
  added_lines diff_content = []
  /\ (forall patterns,
        check_content_patterns findall diff_content patterns = Ok [])
  /\ (forall file_path cfg,
        content_patterns cfg <> [] ->
        rule_details findall render file_path diff_content cfg = Ok None).
Proof.
  intros Hnone.
  assert (Hadded : added_lines diff_content = []).
  { apply length_zero_iff_nil. unfold added_lines.
    change (fun l n => [(l, n)]) with pair_line.
    by rewrite scan_diff_pairs_length, Hnone. }
  assert (Hcheck : forall patterns,
            check_content_patterns findall diff_content patterns = Ok []).
  { intros patterns. by rewrite check_content_patterns_added, Hadded. }
  split; [exact Hadded|]. split; [exact Hcheck|].
  intros file_path cfg Hc. unfold rule_details.
  destruct (_ && _)%bool; [reflexivity|].
  rewrite (bool_decide_eq_false_2 _ Hc), Hcheck. reflexivity.
Qed.

(** X8: when the diff of a file cannot be retrieved, the file is analysed
    with the empty diff: every rule is then evaluated without an exception,
    and it fires exactly when it has no content pattern and its path filter
    passes. *)
Theorem failed_diff_path_only
    (git_diff_file : string -> string -> string -> completed)
    (file_path base_ref head_ref : string) (cfg : PatternConfig) :
  git_diff_file file_path base_ref head_ref = CalledProcessError ->
  get_file_diff git_diff_file file_path base_ref head_ref = Ok ""
  /\ exists fired,
       (get_file_diff git_diff_file file_path base_ref head_ref
          ≫= fun diff_content =>
               rule_details findall render file_path diff_content cfg)
       = Ok fired
       /\ (is_Some fired
           <-> content_patterns cfg = [] /\ path_passes file_path cfg).
Proof.
  intros Hfail. unfold get_file_diff. rewrite Hfail. split; [reflexivity|].
  cbn [mbind result_bind].
  destruct (rule_details_total findall render file_path "" cfg)
    as [fired Hfired].
  { intros p text _ Ht. by apply empty_diff_no_added_text in Ht. }
  exists fired. split; [exact Hfired|].
  rewrite (rule_details_fired _ _ _ _ _ _ Hfired). unfold content_passes.
  split.
  - intros [Hp [Hc|(p & text & _ & _ & Ht & _)]]; [done|].
    by apply empty_diff_no_added_text in Ht.
  - intros [Hc Hp]. split; [done|by left].
Qed.

End ScanFacts.

Lemma not_header (diff_line : string) (a : ascii) (p : string) :
  a <> "@"%char -> startswith diff_line (String a p) = true ->
  hunk_match diff_line = None.
Proof.
  intros Ha Hs. destruct (hunk_match diff_line) as [c|] eqn:E; [|done].
  apply hunk_match_startswith in E.
  by rewrite (startswith_first _ _ "@ -" _ "@" Ha Hs) in E.
Qed.

Lemma startswith_shorter (s p : string) (a : ascii) :
  startswith s (String a p) = true -> startswith s (String a "") = true.
Proof.
  destruct s as [|c s]; [done|]. rewrite !startswith_cons.
  intros Hs. apply andb_true_iff in Hs as [-> _]. reflexivity.
Qed.

(** X9: the lines the loop passes over. A line that starts with [+++] gives
    no match and moves the cursor by one, as a context line does; a line that
    starts with [-] and a line that starts with a backslash give no match and
    leave the cursor. *)
Theorem scan_passes_over {A : Type} (emit : string -> Z -> list A)
    (current_line : Z) (diff_line : string) (rest : list string) :
  (startswith diff_line "+++" = true ->
   scan_diff emit current_line (diff_line :: rest)
   = scan_diff emit (current_line + 1) rest)
  /\ (startswith diff_line "-" = true ->
      scan_diff emit current_line (diff_line :: rest)
      = scan_diff emit current_line rest)
  /\ (startswith diff_line "\" = true ->
      scan_diff emit current_line (diff_line :: rest)
      = scan_diff emit current_line rest).
Proof.
  split; [|split]; intros Hs; cbn [scan_diff].
  - rewrite (not_header diff_line "+" "++") by done.
    unfold is_added. rewrite Hs, andb_false_r.
    rewrite (startswith_first _ _ "" "+" "-" ltac:(done) Hs).
    rewrite (startswith_first _ _ "--" "+" "-" ltac:(done) Hs).
    by rewrite (startswith_first _ _ "" "+" "\" ltac:(done) Hs).
  - rewrite (not_header diff_line "-" "") by done.
    unfold is_added.
    rewrite (startswith_first _ _ "" "-" "+" ltac:(done) Hs).
    by rewrite Hs.
  - rewrite (not_header diff_line "\" "") by done.
    unfold is_added.
    rewrite (startswith_first _ _ "" "\" "+" ltac:(done) Hs).
    rewrite (startswith_first _ _ "" "\" "-" ltac:(done) Hs).
    rewrite (startswith_first _ _ "--" "\" "-" ltac:(done) Hs).
    by rewrite Hs.
Qed.
(** ** The analysis as a whole *)

Lemma add_items_app (r : ImpactReport) (l1 l2 : list ImpactItem) :
  add_items r (l1 ++ l2) = add_items (add_items r l1) l2.
Proof. apply foldl_app. Qed.

Lemma add_items_summary (evs : list ImpactItem) (r : ImpactReport) :
  summary (add_items r evs) = summary r
  /\ changed_files (add_items r evs) = changed_files r.
Proof.
  revert r. induction evs as [|e evs IH]; intros r; [done|].
  apply (IH (add_item r e)).
Qed.

Lemma add_items_consistent (evs : list ImpactItem) (r : ImpactReport) :
  consistent r -> consistent (add_items r evs).
Proof.
  unfold consistent. intros Hr.
  rewrite add_items_overall, add_items_items, fmap_app, max_of_app.
  by rewrite Hr.
Qed.

Lemma max_of_NONE (levels : list ImpactLevel) :
  max_of levels = NONE <-> forall l, l ∈ levels -> l = NONE.
Proof.
  split.
  - intros Hmax l Hl. apply rank_inj.
    pose proof (max_of_upper levels l Hl) as Hle. rewrite Hmax in Hle.
    simpl in *. lia.
  - intros Hall. destruct (max_of_attained levels) as [?|Hin]; [done|].
    by apply Hall.
Qed.

Section WholeAnalysis.

Context {Match : Type} `{Countable Match}.
Variable findall : string -> string -> re_flags -> option (list Match).
Variable render : Match -> string.
Variable git_diff_names : string -> string -> completed.
Variable git_diff_file : string -> string -> string -> completed.
Variable config_patterns : list (string * PatternConfig).

#[local] Abbreviation analyze_rules := (analyze_rules findall render).
#[local] Abbreviation analyze_files :=
  (analyze_files findall render git_diff_file config_patterns).
#[local] Abbreviation get_changed_files := (get_changed_files git_diff_names).
#[local] Abbreviation get_file_diff := (get_file_diff git_diff_file).
#[local] Abbreviation analyze :=
  (analyze findall render git_diff_names git_diff_file config_patterns).
#[local] Abbreviation evidences_of_file :=
  (file_evidences findall render git_diff_file config_patterns).
#[local] Abbreviation evidences_of_files :=
  (analysis_evidences findall render git_diff_file config_patterns).
#[local] Abbreviation fires := (fires_on findall render git_diff_file).

Lemma rule_details_length (file_path diff_content : string)
    (cfg : PatternConfig) (details : list string) :
  rule_details findall render file_path diff_content cfg = Ok (Some details) ->
  (length details <= 5)%nat.
Proof.
  unfold rule_details. destruct (_ && _)%bool; [discriminate|].
  destruct (bool_decide (content_patterns cfg = [])).
  { intros [= <-]. simpl. lia. }
  destruct (check_content_patterns _ _ _) as [matches|]; [|discriminate].
  cbn [mbind result_bind].
  destruct (bool_decide _); [discriminate|]. intros [= <-].
  rewrite (collect_details_first_seen render file_path _ ∅ [])
    by (simpl; lia).
  rewrite length_fmap, length_take. lia.
Qed.

Lemma analysed_cons (f : string) (fs : list string) :
  analysed (f :: fs) = if skipped f then analysed fs else f :: analysed fs.
Proof. unfold analysed. cbn [List.filter]. by destruct (skipped f). Qed.

Lemma analyze_file_evidences (f base_ref head_ref : string)
    (r : ImpactReport) :
  analyze_file findall render git_diff_file config_patterns f base_ref
    head_ref r
  = add_items r <$> evidences_of_file base_ref head_ref f.
Proof.
  unfold analyze_file, file_evidences.
  destruct (get_file_diff f base_ref head_ref) as [diff|]; [|reflexivity].
  cbn [mbind result_bind]. apply analyze_rules_evidences.
Qed.

(** The loop over the files adds what the files add, in their order, and
    raises what the first of them raises. *)
Lemma analyze_files_evidences (files : list string)
    (base_ref head_ref : string) (r : ImpactReport) :
  analyze_files files base_ref head_ref r
  = add_items r <$> evidences_of_files base_ref head_ref files.
Proof.
  unfold analysis_evidences. revert r.
  induction files as [|f fs IH]; intros r; [reflexivity|].
  cbn [ImpactCheck.analyze_files]. rewrite analysed_cons.
  destruct (skipped f); [apply IH|].
  rewrite analyze_file_evidences. cbn [fmap list_fmap collect].
  destruct (evidences_of_file base_ref head_ref f) as [evs|]; [|reflexivity].
  cbn [fmap result_fmap mbind result_bind]. rewrite IH.
  destruct (collect _) as [later|]; [|reflexivity].
  cbn [fmap result_fmap mbind result_bind]. by rewrite add_items_app.
Qed.

Lemma file_evidences_Ok (base_ref head_ref f : string)
    (evs : list ImpactItem) :
  evidences_of_file base_ref head_ref f = Ok evs ->
  Forall (fun e => ImpactCheck.file_path e = f
                   /\ category e ∈ config_patterns.*1
                   /\ (length (details e) <= 5)%nat) evs.
Proof.
  unfold file_evidences.
  destruct (get_file_diff f base_ref head_ref) as [diff|]; [|discriminate].
  cbn [mbind result_bind]. unfold rules_evidences. intros Hevs.
  apply Forall_forall. intros e He.
  apply (collect_Ok_elem _ _ e Hevs) in He as (l & Hl & He).
  apply list_elem_of_fmap in Hl as (rule & Hl & Hrule). symmetry in Hl.
  destruct (rule_evidence_elem _ _ _ _ _ _ _ Hl He)
    as (_ & Hc & Hf & Hd & _).
  split; [done|]. split.
  - rewrite Hc. apply list_elem_of_fmap. by exists rule.
  - by eapply rule_details_length.
Qed.

Lemma analysis_evidences_Ok (base_ref head_ref : string)
    (files : list string) (evs : list ImpactItem) :
  evidences_of_files base_ref head_ref files = Ok evs ->
  Forall (from_analysis config_patterns files) evs.
Proof.
  unfold analysis_evidences. intros Hevs.
  apply Forall_forall. intros e He.
  apply (collect_Ok_elem _ _ e Hevs) in He as (l & Hl & He).
  apply list_elem_of_fmap in Hl as (f & Hl & Hf). symmetry in Hl.
  apply file_evidences_Ok in Hl. rewrite Forall_forall in Hl.
  destruct (Hl e He) as (Hpath & ? & ?). unfold from_analysis.
  by rewrite Hpath.
Qed.

Lemma analyze_files_adds (files : list string) (base_ref head_ref : string)
    (r r' : ImpactReport) :
  analyze_files files base_ref head_ref r = Ok r' ->
  exists evs,
    evidences_of_files base_ref head_ref files = Ok evs
    /\ r' = add_items r evs /\ Forall (from_analysis config_patterns files) evs.
Proof.
  rewrite analyze_files_evidences.
  destruct (evidences_of_files base_ref head_ref files) as [evs|] eqn:Ee;
    [|discriminate].
  intros [= <-]. exists evs. split; [done|]. split; [done|].
  by eapply analysis_evidences_Ok.
Qed.





Lemma analyze_result (base_ref head_ref : string) (r : ImpactReport) :
  analyze base_ref head_ref new_report = Ok r ->
  exists files r0,
    fst <$> get_changed_files base_ref head_ref new_report = Ok files
    /\ analyze_files files base_ref head_ref new_report = Ok r0
    /\ items r = items r0
    /\ overall_impact r = overall_impact r0
    /\ changed_files r = files
    /\ (files = [] /\ r = new_report
        \/ files <> [] /\ summary r = summary (generate_summary r0)).
Proof.
  unfold ImpactCheck.analyze, ImpactCheck.get_changed_files.
  destruct (git_diff_names base_ref head_ref) as [stdout| |];
    cbn [fmap result_fmap mbind result_bind fst].
  - destruct (List.filter _ _) as [|f fs] eqn:Ef.
    + intros [= <-]. exists [], new_report. repeat split; by left.
    + rewrite (analyze_files_changed_files findall render).
      destruct (analyze_files (f :: fs) base_ref head_ref new_report)
        as [r0|] eqn:E0; [|discriminate].
      intros [= <-]. exists (f :: fs), r0. repeat split; try done; by right.
  - intros [= <-]. exists [], new_report. repeat split; by left.
  - discriminate.
Qed.




(** X12: the loop over the files only appends: the items of the report it is
    given stay at the head of the list, the overall severity does not go down,
    and the summary and the list of changed files are not touched. *)
Theorem analysis_appends (files : list string) (base_ref head_ref : string)
    (r r' : ImpactReport) :
  analyze_files files base_ref head_ref r = Ok r' ->
  items r `prefix_of` items r'
  /\ (rank (overall_impact r) <= rank (overall_impact r'))%nat
  /\ summary r' = summary r
  /\ changed_files r' = changed_files r.
Proof.
  intros Hr. apply analyze_files_adds in Hr as (evs & _ & -> & _).
  split; [rewrite add_items_items; by eexists|].
  split; [rewrite add_items_overall; apply max_level_le_l|].
  apply add_items_summary.
Qed.

(** X13: in the report [analyze] returns the overall severity is the largest
    severity of the items; it is NONE exactly when every item has the level
    NONE, no item being one case. *)
Theorem analyze_overall_is_maximum (base_ref head_ref : string)
    (r : ImpactReport) :
  analyze base_ref head_ref new_report = Ok r ->
  overall_impact r = max_of (impact_level <$> items r)
  /\ (overall_impact r = NONE
      <-> forall e, e ∈ items r -> impact_level e = NONE).
Proof.
  intros Hr. apply analyze_result in Hr as (files & r0 & _ & Hr0 & Hi & Ho & _).
  apply analyze_files_adds in Hr0 as (evs & _ & -> & _).
  assert (Hmax : overall_impact r = max_of (impact_level <$> items r)).
  { rewrite Hi, Ho. by apply add_items_consistent. }
  split; [exact Hmax|]. rewrite Hmax, max_of_NONE. split.
  - intros Hall e He. apply Hall. apply list_elem_of_fmap. by exists e.
  - intros Hall l Hl. apply list_elem_of_fmap in Hl as (e & -> & He).
    by apply Hall.
Qed.

(** X14: in the report [analyze] returns, the list of changed files is the
    one the subprocess gave, the files passed over included; and every item
    names a file of that list that was not passed over and a rule of the
    configuration, and has at most five details. *)
Theorem analyze_items_wellformed (base_ref head_ref : string)
    (r : ImpactReport) :
  analyze base_ref head_ref new_report = Ok r ->
  fst <$> get_changed_files base_ref head_ref new_report
  = Ok (changed_files r)
  /\ forall e, e ∈ items r ->
       ImpactCheck.file_path e ∈ changed_files r
       /\ skipped (ImpactCheck.file_path e) = false
       /\ category e ∈ config_patterns.*1
       /\ (length (details e) <= 5)%nat.
Proof.
  intros Hr.
  apply analyze_result in Hr as (files & r0 & Hfiles & Hr0 & Hi & _ & Hc & _).
  rewrite Hc. split; [exact Hfiles|]. intros e He. rewrite Hi in He.
  apply analyze_files_adds in Hr0 as (evs & _ & -> & Hevs).
  rewrite add_items_items in He. simpl in He.
  rewrite Forall_forall in Hevs. destruct (Hevs e He) as (Hf & Hn & Hd).
  unfold analysed in Hf. apply list_elem_of_In, filter_In in Hf as [Hf Hs].
  split; [by apply list_elem_of_In|].
  split; [by apply negb_true_iff|done].
Qed.




End WholeAnalysis.



(** ** Path patterns *)

Lemma translate_from_double_star (rest : list ascii) :
  translate_from 0 ("*"%char :: "*"%char :: rest)
  = translate_from 0 ("*"%char :: rest).
Proof.
  rewrite (translate_from_star ("*"%char :: rest)).
  rewrite (translate_from_star rest).
  by destruct (translate_from 0 rest) as [|[] ?].
Qed.

(** X16: a pattern without wildcard or set matches the one path that is equal
    to it, letter case included; a rule whose path patterns are all such
    matches exactly the paths it lists. *)
Theorem plain_pattern_exact (name pat : string) (patterns : list string) :
  plain pat ->
  (fnmatch name pat = true <-> name = pat)
  /\ (Forall plain patterns ->
      (check_path_patterns name patterns = true <-> name ∈ patterns)).
Proof.
  assert (Hexact : forall p, plain p -> fnmatch name p = true <-> name = p).
  { intros p Hp. unfold fnmatch, fnmatchcase, translate.
    rewrite translate_from_plain_only by done. rewrite matches_lits_only.
    split; [|by intros ->]. intros Heq.
    by rewrite <- (string_of_list_ascii_of_string name), Heq,
      string_of_list_ascii_of_string. }
  intros Hpat. split; [by apply Hexact|].
  intros Hall. rewrite check_path_patterns_true. rewrite Forall_forall in Hall.
  split.
  - intros (p & Hp & Hm). apply Hexact in Hm as ->; [done|by apply Hall].
  - intros Hin. exists name. split; [done|]. apply Hexact; [by apply Hall|done].
Qed.

(** X17: two stars are one star: after plain text, [**] matches what [*]
    matches. So a pattern [pre**/*suf] asks for a separator between [pre] and
    [suf]: it matches a path exactly when the path is [pre], any text, a
    slash, any text, [suf]. *)
Theorem double_star_is_star (pre suf name : string) :
  plain pre ->
  (forall rest,
     fnmatch name (pre +:+ "**" +:+ rest) = fnmatch name (pre +:+ "*" +:+ rest))
  /\ (plain suf ->
      (fnmatch name (pre +:+ "**/*" +:+ suf) = true
       <-> exists a b, name = pre +:+ a +:+ "/" +:+ b +:+ suf)).
Proof.
  intros Hpre. split.
  - intros rest. unfold fnmatch, fnmatchcase, translate.
    rewrite (list_ascii_of_string_app pre ("**" +:+ rest)).
    rewrite (list_ascii_of_string_app pre ("*" +:+ rest)).
    rewrite !translate_from_plain by done.
    change (list_ascii_of_string ("**" +:+ rest))
      with ("*"%char :: "*"%char :: list_ascii_of_string rest).
    change (list_ascii_of_string ("*" +:+ rest))
      with ("*"%char :: list_ascii_of_string rest).
    by rewrite translate_from_double_star.
  - intros Hsuf. unfold fnmatch, fnmatchcase, translate.
    rewrite (list_ascii_of_string_app pre ("**/*" +:+ suf)).
    rewrite translate_from_plain by done.
    change (list_ascii_of_string ("**/*" +:+ suf))
      with ("*"%char :: "*"%char :: "/"%char :: "*"%char
              :: list_ascii_of_string suf).
    rewrite translate_from_double_star, translate_from_star.
    change (translate_from 0 ("/"%char :: ?l))
      with (Lit "/"%char :: translate_from 0 l).
    rewrite translate_from_star, translate_from_plain_only by done.
    rewrite matches_lits. split.
    + intros (s & Hname & Hm).
      apply matches_star_true in Hm as (s1 & s2 & -> & Hm).
      change (Lit "/"%char :: ?l) with ((Lit <$> ["/"%char]) ++ l) in Hm.
      assert (Hm' : matches ((Lit <$> ["/"%char])
                       ++ STAR :: (Lit <$> list_ascii_of_string suf)) s2 = true).
      { revert Hm. by destruct (list_ascii_of_string suf). }
      apply matches_lits in Hm' as (s3 & -> & Hm').
      apply matches_star_true in Hm' as (s4 & s5 & -> & Hm').
      apply matches_lits_only in Hm' as ->.
      exists (string_of_list_ascii s1), (string_of_list_ascii s4).
      rewrite <- (string_of_list_ascii_of_string name), Hname.
      rewrite !string_of_list_ascii_app.
      by rewrite !string_of_list_ascii_of_string.
    + intros (a & b & ->).
      exists (list_ascii_of_string (a +:+ "/" +:+ b +:+ suf)).
      split; [by rewrite !list_ascii_of_string_app|].
      apply matches_star_true.
      exists (list_ascii_of_string a),
        (list_ascii_of_string ("/" +:+ b +:+ suf)).
      split; [by rewrite !list_ascii_of_string_app|].
      assert (Hgoal : matches ((Lit <$> ["/"%char])
                        ++ STAR :: (Lit <$> list_ascii_of_string suf))
                        (list_ascii_of_string ("/" +:+ b +:+ suf)) = true).
      { apply matches_lits. exists (list_ascii_of_string (b +:+ suf)).
        split; [reflexivity|]. apply matches_star_true.
        exists (list_ascii_of_string b), (list_ascii_of_string suf).
        split; [by rewrite list_ascii_of_string_app|].
        by apply matches_lits_only. }
      revert Hgoal. by destruct (list_ascii_of_string suf).
Qed.

(** ** The notification sender, when a variable is missing *)

Section SenderMissing.

Variable upper_text : string -> string.
Variable json_dumps : json -> string.
Variable urlparse_accepts : string -> bool.
Variable urlopen : Request -> option string.

(** X18: when the notification is not skipped and the environment lacks one
    of the four variables the message needs, the run ends with the [KeyError]
    of the first one missing, in the order repository, server, number,
    impact, and no request goes out. *)
Theorem missing_variable_raises (environ : gmap string string) (key : string) :
  ~ (no_target environ \/ is_draft environ) ->
  first_missing environ = Some key ->
  let r :=
    SlackNotify.main upper_text json_dumps urlparse_accepts urlopen environ in
  contacted r = [] /\ result r = KeyError key.
Proof.
  intros Hsend Hkey r. unfold r, SlackNotify.main.
  destruct (environ !! "SC_ASSESSOR_SLACK_URL") as [url|] eqn:Eurl;
    [|destruct Hsend; left; by left].
  unfold no_target in Hsend. rewrite Eurl in Hsend.
  destruct url as [|c url]; [destruct Hsend; left; by right|].
  destruct (decide (_ ∈ SKIP_PR_STATUSES)) as [Hd|Hd].
  { destruct Hsend. right. by apply elem_of_singleton in Hd. }
  revert Hkey. unfold first_missing, with_env. cbn [List.find].
  destruct (environ !! "GITHUB_REPOSITORY") as [repo|].
  2:{ rewrite bool_decide_eq_true_2 by done. by intros [= <-]. }
  rewrite bool_decide_eq_false_2 by done.
  destruct (environ !! "GITHUB_SERVER_URL") as [server|].
  2:{ rewrite bool_decide_eq_true_2 by done. by intros [= <-]. }
  rewrite bool_decide_eq_false_2 by done.
  destruct (environ !! "PR_NUMBER") as [number|].
  2:{ rewrite bool_decide_eq_true_2 by done. by intros [= <-]. }
  rewrite bool_decide_eq_false_2 by done.
  destruct (environ !! "OVERALL_IMPACT") as [impact|].
  2:{ rewrite bool_decide_eq_true_2 by done. by intros [= <-]. }
  rewrite bool_decide_eq_false_2 by done. discriminate.
Qed.

End SenderMissing.

(** ** The markdown report *)

Lemma setdefault_append_get (by_level : list (ImpactLevel * list ImpactItem))
    (item : ImpactItem) (level : ImpactLevel) :
  by_level_get (setdefault_append by_level item) level
  = by_level_get by_level level
      ++ (if decide (impact_level item = level) then [item] else []).
Proof.
  induction by_level as [|[l group] rest IH].
  - cbn [setdefault_append by_level_get].
    destruct (ImpactLevel_eq (impact_level item) level) eqn:E.
    + apply ImpactLevel_eq_true in E. by rewrite decide_True.
    + rewrite decide_False; [done|]. intros Heq.
      apply ImpactLevel_eq_true in Heq. congruence.
  - cbn [setdefault_append].
    destruct (ImpactLevel_eq l (impact_level item)) eqn:El.
    + apply ImpactLevel_eq_true in El as ->. cbn [by_level_get].
      destruct (ImpactLevel_eq (impact_level item) level) eqn:E.
      * apply ImpactLevel_eq_true in E. by rewrite decide_True.
      * rewrite decide_False.
        -- by rewrite app_nil_r.
        -- intros Heq. apply ImpactLevel_eq_true in Heq. congruence.
    + cbn [by_level_get]. destruct (ImpactLevel_eq l level) eqn:E; [|exact IH].
      apply ImpactLevel_eq_true in E as ->. rewrite decide_False.
      * by rewrite app_nil_r.
      * intros Heq. rewrite Heq in El.
        assert (ImpactLevel_eq level level = true) by by apply ImpactLevel_eq_true.
        congruence.
Qed.

Lemma by_level_get_foldl (l : list ImpactItem)
    (by_level : list (ImpactLevel * list ImpactItem)) (level : ImpactLevel) :
  by_level_get (foldl setdefault_append by_level l) level
  = by_level_get by_level level ++ filter (fun i => impact_level i = level) l.
Proof.
  revert by_level. induction l as [|i l IH]; intros by_level.
  - by rewrite app_nil_r.
  - cbn [foldl]. rewrite IH, setdefault_append_get, filter_cons.
    rewrite <- app_assoc. by destruct (decide (impact_level i = level)).
Qed.

Lemma level_lines_group (l : list ImpactItem) (level : ImpactLevel) :
  level_lines (foldl setdefault_append [] l) level
  = group_lines level (filter (fun i => impact_level i = level) l).
Proof.
  unfold level_lines, group_lines. rewrite by_level_get_foldl.
  cbn [by_level_get app]. by destruct (filter _ l).
Qed.

(** X19: the findings are grouped by level: the dictionary built item by
    item holds, for each level, the items of that level in the order they
    were added, and the lines under "Detailed Findings" are those of the
    CRITICAL, HIGH, MEDIUM and LOW groups in that order. An item of level
    NONE is in none of them, so two reports that differ only in such items
    print the same findings. *)
Theorem findings_grouped_by_level (r : ImpactReport) :
  (forall level,
     by_level_get (foldl setdefault_append [] (items r)) level
     = filter (fun i => impact_level i = level) (items r))
  /\ findings_lines r
     = flat_map
         (fun level =>
            group_lines level
              (filter (fun i => impact_level i = level) (items r)))
         [CRITICAL; HIGH; MEDIUM; LOW]
  /\ (forall r',
        filter (fun i => impact_level i <> NONE) (items r')
        = filter (fun i => impact_level i <> NONE) (items r) ->
        findings_lines r' = findings_lines r).
Proof.
  assert (Hlines : forall x,
    findings_lines x
    = flat_map
        (fun level =>
           group_lines level
             (filter (fun i => impact_level i = level) (items x)))
        [CRITICAL; HIGH; MEDIUM; LOW]).
  { intros x. unfold findings_lines. cbn [flat_map].
    by rewrite !level_lines_group. }
  split; [intros level; apply by_level_get_foldl|].
  split; [apply Hlines|].
  intros r' Hsame. rewrite !Hlines. cbn [flat_map].
  assert (Hgroup : forall level, level <> NONE ->
    filter (fun i => impact_level i = level) (items r')
    = filter (fun i => impact_level i = level) (items r)).
  { intros level Hlevel.
    assert (Hsub : forall l : list ImpactItem,
      filter (fun i => impact_level i = level) l
      = filter (fun i => impact_level i = level)
          (filter (fun i => impact_level i <> NONE) l)).
    { intros l. induction l as [|i l IH]; [done|].
      rewrite !filter_cons.
      destruct (decide (impact_level i = level)) as [Heq|Hne].
      - rewrite decide_True by congruence.
        rewrite filter_cons, decide_True by done. by rewrite IH.
      - destruct (decide (impact_level i <> NONE)); [|exact IH].
        rewrite filter_cons, decide_False by done. exact IH. }
    by rewrite (Hsub (items r')), (Hsub (items r)), Hsame. }
  by rewrite !Hgroup.
Qed.

(** X20: a report in which every evidence has the level NONE prints the
    short text of a report without evidence, although [total_items] counts
    them. *)
Theorem none_evidences_print_short_form (evidences : list ImpactItem) :
  (forall e, e ∈ evidences -> impact_level e = NONE) ->
  let r := generate_summary (add_items new_report evidences) in
  format_markdown r = format_markdown new_report
  /\ summary r !! "total_items" = Some (Z.of_nat (length evidences)).
Proof.
  intros Hnone r.
  assert (Ho : overall_impact r = NONE).
  { unfold r. cbn [overall_impact generate_summary].
    rewrite add_items_overall. cbn [overall_impact new_report].
    rewrite max_level_NONE_l. apply max_of_NONE.
    intros l Hl. apply list_elem_of_fmap in Hl as (e & -> & He).
    by apply Hnone. }
  split.
  - unfold format_markdown, markdown_lines, head_lines. by rewrite Ho.
  - unfold r.
    destruct (summary_lookup (add_items new_report evidences)) as [-> _].
    by rewrite add_items_items.
Qed.

Section MarkdownOfAnalysis.

Context {Match : Type} `{Countable Match}.
Variable findall : string -> string -> re_flags -> option (list Match).
Variable render : Match -> string.
Variable git_diff_names : string -> string -> completed.
Variable git_diff_file : string -> string -> string -> completed.
Variable config_patterns : list (string * PatternConfig).

(** X21: [format_markdown] does not miss a key of the summary on a report
    that [analyze] returned, the report of an empty list of changed files
    included, whose summary was never written. *)
Theorem format_markdown_of_analyze (base_ref head_ref : string)
    (r : ImpactReport) :
  analyze findall render git_diff_names git_diff_file config_patterns
    base_ref head_ref new_report = Ok r ->
  is_Some (format_markdown r).
Proof.
  intros Hr.
  apply (analyze_result findall render) in Hr
    as (files & r0 & _ & _ & Hi & _ & _ & [[_ ->]|[_ Hs]]); [by eexists|].
  unfold format_markdown, markdown_lines.
  destruct (ImpactLevel_eq (overall_impact r) NONE); [by eexists|].
  unfold summary_lines. rewrite Hs.
  destruct (summary_lookup r0) as (-> & -> & -> & -> & ->).
  cbn [mbind option_bind].
  destruct (0 <? _); by eexists.
Qed.

End MarkdownOfAnalysis.

(** ** The list of changed files *)

Lemma split_on_pieces (sep : ascii) (s : string) :
  Forall (fun piece =>
            forallb (fun c => negb (Ascii.eqb c sep))
                    (list_ascii_of_string piece) = true)
         (split_on sep s).
Proof.
  induction s as [|c s IH]; [by repeat constructor|].
  cbn [split_on]. destruct (Ascii.eqb c sep) eqn:E.
  - by constructor.
  - destruct (split_on sep s) as [|piece pieces].
    + repeat constructor. simpl. by rewrite E.
    + apply Forall_cons in IH as [Hp Hps]. constructor; [|done].
      simpl. by rewrite E, Hp.
Qed.

(** X22: [get_changed_files] returns unless the subprocess ends with an
    exception other than [CalledProcessError], which leaves the call. The
    names it returns are not empty and hold no line break; when the
    subprocess succeeds they are stored in the report, when it fails the list
    is empty and the report is left as it was; the items, the overall
    severity and the summary are never touched. *)
Theorem changed_files_names
    (git_diff_names : string -> string -> completed)
    (base_ref head_ref : string) (report : ImpactReport) :
  match get_changed_files git_diff_names base_ref head_ref report with
  | Ok out =>
      git_diff_names base_ref head_ref <> OtherException
      /\ (forall f, f ∈ out.1 -> f <> "" /\ one_line f)
      /\ ((exists stdout, git_diff_names base_ref head_ref = Stdout stdout) ->
          changed_files out.2 = out.1)
      /\ (git_diff_names base_ref head_ref = CalledProcessError ->
          out.1 = [] /\ out.2 = report)
      /\ items out.2 = items report
      /\ overall_impact out.2 = overall_impact report
      /\ summary out.2 = summary report
  | Raise e =>
      e = SubprocessRaised
      /\ git_diff_names base_ref head_ref = OtherException
  end.
Proof.
  unfold get_changed_files.
  destruct (git_diff_names base_ref head_ref) as [stdout| |]; cbn [fst snd].
  - split; [done|]. split.
    + intros f Hf. apply list_elem_of_In, filter_In in Hf as [Hin Hne].
      split.
      * intros ->. discriminate.
      * pose proof (split_on_pieces newline (strip stdout)) as Hall.
        rewrite Forall_forall in Hall. apply Hall. by apply list_elem_of_In.
    + repeat split; done.
  - split; [done|].
    split; [intros f Hf; by apply not_elem_of_nil in Hf|].
    repeat split; try done. by intros [? ?].
  - done.
Qed.

(** ** Order of the files *)

Lemma tally_perm (level : ImpactLevel) (l1 l2 : list ImpactItem) :
  l1 ≡ₚ l2 -> tally level l1 = tally level l2.
Proof. intros Hp. unfold tally. by rewrite Hp. Qed.

Lemma analysed_perm (l1 l2 : list string) :
  l1 ≡ₚ l2 -> analysed l1 ≡ₚ analysed l2.
Proof.
  induction 1 as [|x l1 l2 _ IH|x y l|l1 l2 l3 _ IH1 _ IH2].
  - done.
  - rewrite !analysed_cons. destruct (skipped x); [done|by constructor].
  - rewrite !analysed_cons. destruct (skipped x), (skipped y); try done.
    apply perm_swap.
  - by etrans.
Qed.

Lemma collect_perm {A : Type} (l1 l2 : list (ImpactCheck.result (list A)))
    (r1 : list A) :
  l1 ≡ₚ l2 -> collect l1 = Ok r1 ->
  exists r2, collect l2 = Ok r2 /\ r1 ≡ₚ r2.
Proof.
  intros Hperm. revert r1.
  induction Hperm as [|x l1 l2 _ IH|x y l|l1 l2 l3 _ IH1 _ IH2]; intros r1 Hr.
  - by exists r1.
  - destruct x as [a|]; [|discriminate]. simpl in Hr.
    destruct (collect l1) as [b|]; [|discriminate].
    injection Hr as <-. destruct (IH b eq_refl) as (b' & Hb' & Hperm).
    exists (a ++ b'). simpl. rewrite Hb'. split; [done|]. by rewrite Hperm.
  - destruct y as [b|]; [|discriminate].
    destruct x as [a|]; [|discriminate]. simpl in *.
    destruct (collect l) as [c|]; [|discriminate]. simpl in *.
    injection Hr as <-. exists (a ++ b ++ c). split; [done|].
    rewrite !app_assoc. by rewrite (Permutation_app_comm b a).
  - destruct (IH1 r1 Hr) as (r2 & Hr2 & Hp2).
    destruct (IH2 r2 Hr2) as (r3 & Hr3 & Hp3).
    exists r3. split; [done|]. by etrans.
Qed.

Section FileOrder.

Context {Match : Type} `{Countable Match}.
Variable findall : string -> string -> re_flags -> option (list Match).
Variable render : Match -> string.
Variable git_diff_file : string -> string -> string -> completed.
Variable config_patterns : list (string * PatternConfig).

(** X23: the order of the changed files shows only in the order of the
    items: when the loop over a list of files returns a report, it returns
    one for every list that holds the same files, with the same items up to
    order, the same overall severity and the same count for every level. *)
Theorem file_order_only_orders_items (files files' : list string)
    (base_ref head_ref : string) (report r : ImpactReport) :
  files ≡ₚ files' ->
  analyze_files findall render git_diff_file config_patterns files
    base_ref head_ref report = Ok r ->
  exists r',
    analyze_files findall render git_diff_file config_patterns files'
      base_ref head_ref report = Ok r'
    /\ items r ≡ₚ items r'
    /\ overall_impact r = overall_impact r'
    /\ (forall level, tally level (items r) = tally level (items r'))
    /\ length (items r) = length (items r').
Proof.
  intros Hperm. rewrite !analyze_files_evidences.
  unfold analysis_evidences.
  destruct (collect (_ <$> analysed files)) as [evs|] eqn:Ee; [|discriminate].
  intros [= <-].
  destruct (collect_perm
              (file_evidences findall render git_diff_file config_patterns
                 base_ref head_ref <$> analysed files)
              (file_evidences findall render git_diff_file config_patterns
                 base_ref head_ref <$> analysed files') evs)
    as (evs' & -> & Hitems); [|done|].
  { apply fmap_Permutation. by apply analysed_perm. }
  eexists. split; [reflexivity|].
  rewrite !add_items_items, !add_items_overall.
  split; [by rewrite Hitems|].
  split; [f_equal; apply max_of_perm; by rewrite Hitems|].
  split; [intros level; apply tally_perm; by rewrite Hitems|].
  by rewrite Hitems.
Qed.

End FileOrder.
(** ** The further statements at concrete inputs *)

Example migration_directly_under_versions :
  Fnmatch.fnmatch "migrations/versions/0001.py" "migrations/versions/**/*.py"
  = false
  /\ Fnmatch.fnmatch "migrations/versions/2024/0001.py"
       "migrations/versions/**/*.py" = true.
Proof. split; reflexivity. Qed.

(** The texts on the two sides of a star do not overlap. *)
Example star_sides_do_not_overlap :
  Fnmatch.fnmatch "a" "a*a" = false
  /\ Fnmatch.fnmatch "aa" "a*a" = true
  /\ Fnmatch.fnmatch "deploy/x.yml" "deploy/*/x.yml" = false.
Proof. repeat split; reflexivity. Qed.

Example line_starting_with_two_pluses :
  added_lines (unlines ["@@ -1,1 +1,3 @@"; " int i;"; "+++i;"; "+return i;"])
  = [("return i;", 3)].
Proof. reflexivity. Qed.

(** A rule with a level [ImpactLevel] does not have raises when it fires,
    and only then. *)
Example unknown_level :
  analyze_files findall_plain id example_diffs
    [("odd", content_rule "urgent" ["kessel"])] ["app/client.py"]
    "base" "head" new_report
  = Raise ValueError
  /\ analyze_files findall_plain id example_diffs
       [("odd", content_rule "urgent" ["redis"])] ["app/client.py"]
       "base" "head" new_report
     = Ok new_report.
Proof. split; vm_compute; reflexivity. Qed.

(** An output of the subprocess that cannot be decoded ends the analysis. *)
Example undecodable_diff :
  analyze findall_plain id example_names (fun _ _ _ => OtherException)
    example_rules "base" "head" new_report
  = Raise SubprocessRaised.
Proof. vm_compute. reflexivity. Qed.

Lemma gate_monotone_witness :
  (rank (fail_on_level fail_on_low) <= rank (fail_on_level fail_on_high))%nat
  /\ (rank (overall_impact (add_item new_report (example_item HIGH)))
      <= rank (overall_impact (add_item new_report (example_item CRITICAL))))%nat
  /\ main_exit (Some fail_on_low)
       (add_item new_report (example_item CRITICAL)) = 1.
Proof.
  assert (H1 : (rank (fail_on_level fail_on_low)
                <= rank (fail_on_level fail_on_high))%nat) by (simpl; lia).
  assert (H2 : (rank (overall_impact (add_item new_report (example_item HIGH)))
                <= rank (overall_impact
                           (add_item new_report (example_item CRITICAL))))%nat)
    by (simpl; lia).
  split; [exact H1|]. split; [exact H2|].
  apply (proj1 (gate_monotone fail_on_high fail_on_low _ _ H1 H2)).
  reflexivity.
Defined.

(** The match of "kessel" in the added line of the example is in the result,
    with the number of that line. *)
Lemma matches_come_from_added_lines_witness :
  exists matches n,
    check_content_patterns findall_plain example_diff ["kessel"] = Ok matches
    /\ ("  - uses Kessel", n) ∈ added_lines example_diff
    /\ {| pattern := "Kessel"; line_number := n |} ∈ matches.
Proof.
  destruct (check_content_patterns findall_plain example_diff ["kessel"])
    as [matches|] eqn:Hrun; [|vm_compute in Hrun; discriminate].
  destruct (proj2 (proj2 (proj2 (matches_come_from_added_lines findall_plain
                                   example_diff ["kessel"])) matches Hrun)
              "  - uses Kessel" "kessel" ["Kessel"] "Kessel")
    as (n & Hline & Hin).
  - exact example_diff_added.
  - apply list_elem_of_here.
  - reflexivity.
  - apply list_elem_of_here.
  - by exists matches, n.
Defined.

Lemma no_added_line_no_match_witness :
  List.filter is_added (split_on newline removal_diff) = []
  /\ check_content_patterns findall_plain removal_diff ["kessel"] = Ok [].
Proof.
  assert (Hnone : List.filter is_added (split_on newline removal_diff) = [])
    by reflexivity.
  split; [exact Hnone|].
  apply (proj1 (proj2 (no_added_line_no_match findall_plain id removal_diff
                         Hnone))).
Defined.

Lemma failed_diff_path_only_witness :
  no_diffs "deploy/clowdapp.yml" "base" "head" = CalledProcessError
  /\ exists fired,
       (get_file_diff no_diffs "deploy/clowdapp.yml" "base" "head"
          ≫= fun diff_content =>
               rule_details findall_plain id "deploy/clowdapp.yml"
                 diff_content (path_rule ["deploy/*.yml"]))
       = Ok fired
       /\ is_Some fired.
Proof.
  assert (Hfail : no_diffs "deploy/clowdapp.yml" "base" "head"
                  = CalledProcessError) by reflexivity.
  split; [exact Hfail|].
  destruct (proj2 (failed_diff_path_only findall_plain id no_diffs
                     "deploy/clowdapp.yml" "base" "head"
                     (path_rule ["deploy/*.yml"]) Hfail))
    as (fired & Hfired & Hiff).
  exists fired. split; [exact Hfired|]. apply Hiff.
  split; [reflexivity|]. right. exists "deploy/*.yml".
  split; [apply list_elem_of_here|reflexivity].
Defined.



Lemma analysis_appends_witness :
  exists r',
    analyze_files findall_plain id example_diffs example_rules
      ["deploy/clowdapp.yml"] "base" "head"
      (add_item new_report (example_item LOW)) = Ok r'
    /\ [example_item LOW] `prefix_of` items r'
    /\ (rank LOW <= rank (overall_impact r'))%nat.
Proof.
  destruct (analyze_files findall_plain id example_diffs example_rules
              ["deploy/clowdapp.yml"] "base" "head"
              (add_item new_report (example_item LOW))) as [r'|] eqn:Hrun;
    [|vm_compute in Hrun; discriminate].
  exists r'. split; [reflexivity|].
  destruct (analysis_appends findall_plain id example_diffs example_rules
              _ _ _ _ _ Hrun) as (Hprefix & Hrank & _).
  split; [exact Hprefix|exact Hrank].
Defined.

Lemma analyze_overall_is_maximum_witness :
  exists r,
    analyze findall_plain id example_names example_diffs example_rules
      "base" "head" new_report = Ok r
    /\ overall_impact r = max_of (impact_level <$> items r).
Proof.
  destruct (analyze findall_plain id example_names example_diffs example_rules
              "base" "head" new_report) as [r|] eqn:Hrun;
    [|vm_compute in Hrun; discriminate].
  exists r. split; [reflexivity|].
  exact (proj1 (analyze_overall_is_maximum findall_plain id example_names
                  example_diffs example_rules "base" "head" r Hrun)).
Defined.

Lemma analyze_items_wellformed_witness :
  exists r,
    analyze findall_plain id example_names example_diffs example_rules
      "base" "head" new_report = Ok r
    /\ changed_files r = ["deploy/clowdapp.yml"; ".github/workflows/ci.yml"].
Proof.
  destruct (analyze findall_plain id example_names example_diffs example_rules
              "base" "head" new_report) as [r|] eqn:Hrun;
    [|vm_compute in Hrun; discriminate].
  exists r. split; [reflexivity|].
  pose proof (proj1 (analyze_items_wellformed findall_plain id example_names
                       example_diffs example_rules "base" "head" r Hrun))
    as Hfiles.
  remember (changed_files r) as files eqn:Heq. clear Heq.
  vm_compute in Hfiles. by injection Hfiles as <-.
Defined.

Lemma plain_pattern_exact_witness :
  plain "deploy/clowdapp.yml"
  /\ Fnmatch.fnmatch "deploy/clowdapp.yml" "deploy/clowdapp.yml" = true.
Proof.
  assert (Hp : plain "deploy/clowdapp.yml") by reflexivity.
  split; [exact Hp|].
  apply (proj1 (plain_pattern_exact "deploy/clowdapp.yml"
                  "deploy/clowdapp.yml" [] Hp)).
  reflexivity.
Defined.

Lemma double_star_is_star_witness :
  plain "migrations/versions/" /\ plain ".py"
  /\ Fnmatch.fnmatch "migrations/versions/2024/0001.py"
       ("migrations/versions/" +:+ "**/*" +:+ ".py") = true.
Proof.
  assert (Hpre : plain "migrations/versions/") by reflexivity.
  assert (Hsuf : plain ".py") by reflexivity.
  split; [exact Hpre|]. split; [exact Hsuf|].
  apply (proj2 (double_star_is_star "migrations/versions/" ".py"
                  "migrations/versions/2024/0001.py" Hpre) Hsuf).
  by exists "2024", "0001".
Defined.

Lemma missing_variable_raises_witness :
  ~ (no_target example_environ \/ is_draft example_environ)
  /\ first_missing example_environ = Some "GITHUB_SERVER_URL"
  /\ result (SlackNotify.main id (fun _ => "") (fun _ => true) (fun _ => None)
               example_environ)
     = KeyError "GITHUB_SERVER_URL".
Proof.
  assert (Hsend : ~ (no_target example_environ \/ is_draft example_environ)).
  { intros [[Hn|Hn]|Hd]; vm_compute in Hn || vm_compute in Hd; discriminate. }
  assert (Hkey : first_missing example_environ = Some "GITHUB_SERVER_URL")
    by (vm_compute; reflexivity).
  split; [exact Hsend|]. split; [exact Hkey|].
  exact (proj2 (missing_variable_raises id (fun _ => "") (fun _ => true)
                  (fun _ => None) example_environ "GITHUB_SERVER_URL"
                  Hsend Hkey)).
Defined.

Lemma none_evidences_print_short_form_witness :
  (forall e, e ∈ [example_item NONE] -> impact_level e = NONE)
  /\ format_markdown
       (generate_summary (add_items new_report [example_item NONE]))
     = format_markdown new_report.
Proof.
  assert (Hnone : forall e, e ∈ [example_item NONE] -> impact_level e = NONE).
  { intros e He. by apply list_elem_of_singleton in He as ->. }
  split; [exact Hnone|].
  exact (proj1 (none_evidences_print_short_form [example_item NONE] Hnone)).
Defined.

Lemma format_markdown_of_analyze_witness :
  exists r,
    analyze findall_plain id example_names example_diffs example_rules
      "base" "head" new_report = Ok r
    /\ is_Some (format_markdown r).
Proof.
  destruct (analyze findall_plain id example_names example_diffs example_rules
              "base" "head" new_report) as [r|] eqn:Hrun;
    [|vm_compute in Hrun; discriminate].
  exists r. split; [reflexivity|].
  exact (format_markdown_of_analyze findall_plain id example_names
           example_diffs example_rules "base" "head" r Hrun).
Defined.

Lemma file_order_only_orders_items_witness :
  ["deploy/clowdapp.yml"; "app/client.py"]
  ≡ₚ ["app/client.py"; "deploy/clowdapp.yml"]
  /\ exists r r',
       analyze_files findall_plain id example_diffs example_rules
         ["deploy/clowdapp.yml"; "app/client.py"] "base" "head" new_report
       = Ok r
       /\ analyze_files findall_plain id example_diffs example_rules
            ["app/client.py"; "deploy/clowdapp.yml"] "base" "head" new_report
          = Ok r'
       /\ items r ≡ₚ items r'
       /\ overall_impact r = overall_impact r'.
Proof.
  assert (Hperm : ["deploy/clowdapp.yml"; "app/client.py"]
                  ≡ₚ ["app/client.py"; "deploy/clowdapp.yml"])
    by apply perm_swap.
  split; [exact Hperm|].
  destruct (analyze_files findall_plain id example_diffs example_rules
              ["deploy/clowdapp.yml"; "app/client.py"] "base" "head"
              new_report) as [r|] eqn:Hrun;
    [|vm_compute in Hrun; discriminate].
  destruct (file_order_only_orders_items findall_plain id example_diffs
              example_rules _ _ "base" "head" new_report r Hperm Hrun)
    as (r' & Hr' & Hitems & Ho & _).
  by exists r, r'.
Defined.


